(** * The message-synchronisation hook of the chat client

    A shallow embedding of [hooks/useChatConnection.ts] (the second
    document of [src/App.tsx]) and of [types.ts]: the message log, the
    conversation directory, the socket event handlers and the action
    dispatcher, followed by the properties the specification states about
    them.

    Conventions of the embedding.
    - A JavaScript value that may be [undefined] is an [option]; the
      truthiness tests of the source ([a || b], [if (x)]) are written out
      with [truthy] and [js_or].
    - Strings are [string]; [trim], [toLowerCase] and [toUpperCase] act on
      the ASCII range.
    - [Date.now()] and [Math.random()] are inputs of the handlers: the clock
      as a [Z] in milliseconds, read once in a run of a handler, the random
      number by the base-36 digits of its fraction.
    - A date string is represented by the epoch milliseconds it parses to.
    - React state is threaded explicitly.  State updaters run in the order
      they are queued, and the [matched] flag set by the first updater of
      the message handler is read after that updater ran (React applies an
      updater at once when no other update is pending).
    - [socket.emit] appends to the [sent] trace of the state.
    - A [TypeError] thrown by a handler is the result [None]. *)

From Stdlib Require Import ZArith Lia Ascii.
From Stdlib Require String.
From stdpp Require Import base option list strings gmap sorting pretty.

(** ** JavaScript strings *)

Module Js.

(** White space removed by [String.prototype.trim], ASCII range. *)
Definition is_ws (c : ascii) : bool :=
  let n := nat_of_ascii c in
  (n =? 9)%nat || (n =? 10)%nat || (n =? 11)%nat || (n =? 12)%nat
  || (n =? 13)%nat || (n =? 32)%nat.

Fixpoint trimStart (s : string) : string :=
  match s with
  | String c s' => if is_ws c then trimStart s' else s
  | EmptyString => EmptyString
  end.

Fixpoint trimEnd (s : string) : string :=
  match s with
  | String c s' =>
      match trimEnd s' with
      | EmptyString => if is_ws c then EmptyString else String c EmptyString
      | r => String c r
      end
  | EmptyString => EmptyString
  end.

Definition trim (s : string) : string := trimEnd (trimStart s).

Definition lower (c : ascii) : ascii :=
  let n := nat_of_ascii c in
  if (65 <=? n)%nat && (n <=? 90)%nat then ascii_of_nat (n + 32) else c.

Definition upper (c : ascii) : ascii :=
  let n := nat_of_ascii c in
  if (97 <=? n)%nat && (n <=? 122)%nat then ascii_of_nat (n - 32) else c.

Fixpoint map_chars (f : ascii → ascii) (s : string) : string :=
  match s with
  | String c s' => String (f c) (map_chars f s')
  | EmptyString => EmptyString
  end.

Definition toLowerCase : string → string := map_chars lower.
Definition toUpperCase : string → string := map_chars upper.

(** [s.includes(sub)] *)
Fixpoint includes (sub s : string) : bool :=
  String.prefix sub s
  || match s with
     | String _ s' => includes sub s'
     | EmptyString => false
     end.

(** [s.substring(n)] *)
Fixpoint substring (n : nat) (s : string) : string :=
  match n, s with
  | O, _ => s
  | S n', String _ s' => substring n' s'
  | S _, EmptyString => EmptyString
  end.

(** Truthiness of an optional string: [undefined] and [''] are falsy. *)
Definition truthy (o : option string) : bool :=
  match o with
  | Some s => negb (String.eqb s "")
  | None => false
  end.

(** [a || b] on optional strings. *)
Definition js_or (a b : option string) : option string :=
  if truthy a then a else b.

(** [a || 'lit'] *)
Definition or_default (a : option string) (d : string) : string :=
  match a with
  | Some s => if String.eqb s "" then d else s
  | None => d
  end.

(** The digit characters of [Number.prototype.toString(36)]. *)
Definition digits36 : list ascii :=
  String.list_ascii_of_string "0123456789abcdefghijklmnopqrstuvwxyz".

Definition digit36 (d : nat) : ascii :=
  nth (d mod 36) digits36 "0"%char.

(** [x.toString(36)] for [0 <= x < 1], [x] given by the base-36 digits of
    its fraction: ["0"] when there is none, ["0."] followed by the digits
    otherwise.  No sign and no exponent is printed in this range. *)
Definition toString36 (frac : list nat) : string :=
  match frac with
  | [] => "0"
  | _ => String "0" (String "." (String.string_of_list_ascii (digit36 <$> frac)))
  end.

(** [Math.random().toString(36).substring(7)] *)
Definition randomId (frac : list nat) : string :=
  substring 7 (toString36 frac).

End Js.

(** ** Data model ([types.ts]) *)

Definition Reactions := gmap string (list string).

Module Message.
Record t := mk {
  id : option string;        (* [string]; [undefined] only through [data.id!] *)
  text : string;
  sender : option string;    (* [string]; [undefined] when an event names no sender *)
  timestamp : Z;
  isSystem : bool;
  isMe : bool;
  messageType : option string;
  mediaUrl : option string;
  mediaType : option string;
  mediaDuration : option Z;
  fileName : option string;
  fileSize : option Z;
  updatedAt : option Z;
  replyToId : option string;
  chatId : option string;
  reactions : option Reactions;
  isForwarded : option bool;
  forwardedFrom : option string
}.

(** [{ ...msg, id, timestamp, replyToId }] *)
Definition with_sync (i : option string) (ts : Z) (r : option string) (m : t) : t :=
  mk i (text m) (sender m) ts (isSystem m) (isMe m) (messageType m)
     (mediaUrl m) (mediaType m) (mediaDuration m) (fileName m) (fileSize m)
     (updatedAt m) r (chatId m) (reactions m) (isForwarded m) (forwardedFrom m).

(** [{ ...msg, text, updatedAt }] *)
Definition with_edit (txt : string) (u : Z) (m : t) : t :=
  mk (id m) txt (sender m) (timestamp m) (isSystem m) (isMe m) (messageType m)
     (mediaUrl m) (mediaType m) (mediaDuration m) (fileName m) (fileSize m)
     (Some u) (replyToId m) (chatId m) (reactions m) (isForwarded m)
     (forwardedFrom m).

(** [{ ...msg, reactions }] *)
Definition with_reactions (r : Reactions) (m : t) : t :=
  mk (id m) (text m) (sender m) (timestamp m) (isSystem m) (isMe m)
     (messageType m) (mediaUrl m) (mediaType m) (mediaDuration m) (fileName m)
     (fileSize m) (updatedAt m) (replyToId m) (chatId m) (Some r)
     (isForwarded m) (forwardedFrom m).
End Message.

Module Chat.
Record t := mk {
  id : string;
  name : string;
  description : option string;
  lastMessageAt : option Z;
  createdAt : Z
}.

(** [chat.lastMessageAt = ts] *)
Definition touch (ts : Z) (c : t) : t :=
  mk (id c) (name c) (description c) (Some ts) (createdAt c).
End Chat.

Inductive ConnectionStatus := DISCONNECTED | CONNECTING | CONNECTED | ERROR.

#[global] Instance ConnectionStatus_eq_dec : EqDecision ConnectionStatus.
Proof. solve_decision. Defined.

Module UserSettings.
Record t := mk {
  username : string;
  serverUrl : string;
  isDemoMode : bool
}.
End UserSettings.

(** The rows of the history query ([DbMessage]). *)
Module DbMessage.
Record t := mk {
  id : string;
  username : string;
  content : string;
  createdAt : Z;
  messageType : string;
  mediaUrl : option string;
  mediaType : option string;
  mediaDuration : option Z;
  fileName : option string;
  fileSize : option Z;
  replyToId : option string;
  chatId : option string;
  reactions : option Reactions;
  isForwarded : option bool;
  forwardedFrom : option string
}.
End DbMessage.

(** The payload of the inbound ['message'] event. *)
Module MessageData.
Record t := mk {
  id : option string;
  tempId : option string;
  user : option string;
  username : option string;
  text : string;
  createdAt : option Z;      (* [None]: absent or the empty string *)
  messageType : option string;
  mediaUrl : option string;
  mediaType : option string;
  mediaDuration : option Z;
  fileName : option string;
  fileSize : option Z;
  replyToId : option string;
  chatId : option string;
  isForwarded : option bool;
  forwardedFrom : option string
}.
End MessageData.

(** The argument of [sendMediaMessage]. *)
Module UploadData.
Record t := mk {
  messageType : string;      (* 'image' | 'video' | 'audio' *)
  mediaUrl : string;
  mediaType : string;
  fileName : string;
  fileSize : Z;
  mediaDuration : option Z
}.
End UploadData.

(** The payload of an outbound ['message'] event; the three senders of the
    source ([sendMessage], [sendMediaMessage], [forwardMessage]) fill
    different subsets of its fields. *)
Module Outgoing.
Record t := mk {
  user : string;
  username : option string;
  text : string;
  tempId : option string;
  replyToId : option string;
  chatId : option string;
  messageType : option string;
  mediaUrl : option string;
  mediaType : option string;
  fileName : option string;
  fileSize : option Z;
  mediaDuration : option Z;
  isForwarded : option bool;
  forwardedFrom : option string
}.
End Outgoing.

(** What [socket.emit] was called with. *)
Inductive Emitted :=
  | EmitJoin (username : string)
  | EmitJoinChat (chatId : string)
  | EmitMessage (data : Outgoing.t)
  | EmitEditMessage (id : string) (text : string)
  | EmitDeleteMessage (id : string)
  | EmitCreateChat (name : string) (description : option string)
  | EmitToggleReaction (messageId emoji username : string).

(** The state of the hook.  [connected] is [socket && socket.connected];
    [activeChatId] also stands for [activeChatIdRef.current], which an
    effect sets to it after every change; [fetches] lists the conversations
    of the history requests that were issued and have not been answered;
    [timers] counts the pending demo replies. *)
Module State.
Record t := mk {
  messages : list Message.t;
  chats : list Chat.t;
  activeChatId : option string;
  status : ConnectionStatus;
  connected : bool;
  settings : UserSettings.t;
  sent : list Emitted;
  fetches : list string;
  timers : nat
}.

Definition setMessages (f : list Message.t → list Message.t) (st : t) : t :=
  mk (f (messages st)) (chats st) (activeChatId st) (status st) (connected st)
     (settings st) (sent st) (fetches st) (timers st).

Definition setChats (f : list Chat.t → list Chat.t) (st : t) : t :=
  mk (messages st) (f (chats st)) (activeChatId st) (status st) (connected st)
     (settings st) (sent st) (fetches st) (timers st).

Definition setActiveChatId (c : option string) (st : t) : t :=
  mk (messages st) (chats st) c (status st) (connected st)
     (settings st) (sent st) (fetches st) (timers st).

Definition setStatus (s : ConnectionStatus) (st : t) : t :=
  mk (messages st) (chats st) (activeChatId st) s (connected st)
     (settings st) (sent st) (fetches st) (timers st).

Definition setConnected (b : bool) (st : t) : t :=
  mk (messages st) (chats st) (activeChatId st) (status st) b
     (settings st) (sent st) (fetches st) (timers st).

Definition emit (e : Emitted) (st : t) : t :=
  mk (messages st) (chats st) (activeChatId st) (status st) (connected st)
     (settings st) (sent st ++ [e]) (fetches st) (timers st).

Definition setFetches (f : list string → list string) (st : t) : t :=
  mk (messages st) (chats st) (activeChatId st) (status st) (connected st)
     (settings st) (sent st) (f (fetches st)) (timers st).

Definition setTimers (n : nat) (st : t) : t :=
  mk (messages st) (chats st) (activeChatId st) (status st) (connected st)
     (settings st) (sent st) (fetches st) n.
End State.

(** ** The hook ([useChatConnection]) *)

(** [addMessage]: appends a message with a fresh random id and returns the
    id. *)
Definition addMessage (now : Z) (rnd : list nat) (text sender : string)
    (isMe isSystem : bool) (replyToId : option string) (st : State.t)
    : string * State.t :=
  let id := Js.randomId rnd in
  let newMessage :=
    Message.mk (Some id) text (Some sender) now isSystem isMe
      None None None None None None None replyToId None None None None in
  (id, State.setMessages (λ prev, prev ++ [newMessage]) st).

(** The updater that moves a conversation to the top of the directory:
    [findIndex], [splice(chatIndex, 1)], the assignment to [lastMessageAt]
    and [[movedChat, ...updatedChats]].  The assignment writes to the object
    that the previous array holds too; the previous array is dropped. *)
Definition moveChatToTop (cid : string) (ts : Z) (prevChats : list Chat.t)
    : list Chat.t :=
  match list_find (λ c, Chat.id c = cid) prevChats with
  | None => prevChats
  | Some (chatIndex, movedChat) =>
      Chat.touch ts movedChat :: delete chatIndex prevChats
  end.

(** *** The ['message'] handler *)

(** [(data.user || data.username || '').trim().toLowerCase()] *)
Definition senderName (data : MessageData.t) : string :=
  Js.toLowerCase (Js.trim (Js.or_default
    (Js.js_or (MessageData.user data) (MessageData.username data)) "")).

(** [(settingsRef.current.username || '').trim().toLowerCase()] *)
Definition currentUserName (st : State.t) : string :=
  Js.toLowerCase (Js.trim (UserSettings.username (State.settings st))).

Definition isFromMe (st : State.t) (data : MessageData.t) : bool :=
  bool_decide (senderName data = currentUserName st).

(** The isolation check:
    [data.chatId && activeChatIdRef.current && data.chatId !== activeChatIdRef.current] *)
Definition forOtherChat (st : State.t) (data : MessageData.t) : bool :=
  Js.truthy (MessageData.chatId data) && Js.truthy (State.activeChatId st)
  && negb (bool_decide (MessageData.chatId data = State.activeChatId st)).

(** The test of the reconciliation callback,
    [msg.id === data.tempId || (isFromMe && msg.text === data.text && !msg.id.includes('-'))];
    [None] is the [TypeError] of [includes] on an [undefined] id. *)
Definition reconciles (fromMe : bool) (data : MessageData.t) (msg : Message.t)
    : option bool :=
  if bool_decide (Message.id msg = MessageData.tempId data) then Some true
  else if fromMe && bool_decide (Message.text msg = MessageData.text data) then
    match Message.id msg with
    | Some i => Some (negb (Js.includes "-" i))
    | None => None
    end
  else Some false.

(** The object the callback returns on a match:
    [{ ...msg, id: data.id!, timestamp: ..., replyToId: data.replyToId }] *)
Definition synced (data : MessageData.t) (msg : Message.t) : Message.t :=
  Message.with_sync (MessageData.id data)
    (match MessageData.createdAt data with
     | Some t => t
     | None => Message.timestamp msg
     end)
    (MessageData.replyToId data) msg.

(** [prev.map(...)] of the first updater, with the [matched] flag. *)
Fixpoint reconcile (fromMe : bool) (data : MessageData.t)
    (prev : list Message.t) : option (list Message.t * bool) :=
  match prev with
  | [] => Some ([], false)
  | msg :: rest =>
      match reconciles fromMe data msg with
      | None => None
      | Some hit =>
          match reconcile fromMe data rest with
          | None => None
          | Some (rest', matched) =>
              Some ((if hit then synced data msg else msg) :: rest',
                    hit || matched)
          end
      end
  end.

(** The content-based duplicate test of the second updater. *)
Definition isDuplicate (currentTime : Z) (data : MessageData.t)
    (msg : Message.t) : Prop :=
  Message.text msg = MessageData.text data
  ∧ Message.sender msg
      = Js.js_or (MessageData.user data) (MessageData.username data)
  ∧ (Message.timestamp msg > currentTime - 10000)%Z
  ∧ Message.isSystem msg = false.

#[global] Instance isDuplicate_dec currentTime data msg :
  Decision (isDuplicate currentTime data msg).
Proof. unfold isDuplicate. apply _. Defined.

(** The message the second updater builds. *)
Definition newMessage (currentTime : Z) (rnd : list nat) (data : MessageData.t)
    : Message.t :=
  Message.mk
    (if Js.truthy (MessageData.id data) then MessageData.id data
     else Some (Js.randomId rnd))
    (MessageData.text data)
    (Js.js_or (MessageData.user data) (MessageData.username data))
    (match MessageData.createdAt data with
     | Some t => t
     | None => currentTime
     end)
    false false
    (MessageData.messageType data) (MessageData.mediaUrl data)
    (MessageData.mediaType data) (MessageData.mediaDuration data)
    (MessageData.fileName data) (MessageData.fileSize data)
    None
    (MessageData.replyToId data) (MessageData.chatId data)
    None
    (MessageData.isForwarded data) (MessageData.forwardedFrom data).

(** The second updater of the handler (remote insert), with the [setChats]
    call it makes. *)
Definition remoteInsert (currentTime : Z) (rnd : list nat)
    (data : MessageData.t) (st : State.t) : State.t :=
  let prev := State.messages st in
  if Js.truthy (MessageData.id data)
     && bool_decide (Exists (λ m, Message.id m = MessageData.id data) prev)
  then st
  else
    match list_find (isDuplicate currentTime data) prev with
    | Some _ => st
    | None =>
        if forOtherChat st data then st
        else
          let msg := newMessage currentTime rnd data in
          let st' :=
            match MessageData.chatId data with
            | Some cid =>
                if Js.truthy (Some cid)
                then State.setChats
                       (moveChatToTop cid (Message.timestamp msg)) st
                else st
            | None => st
            end in
          State.setMessages (λ prev, prev ++ [msg]) st'
    end.

(** The handler of the ['message'] event. *)
Definition on_message (currentTime : Z) (rnd : list nat)
    (data : MessageData.t) (st : State.t) : option State.t :=
  let fromMe := isFromMe st data in
  if forOtherChat st data then Some st
  else if Js.truthy (MessageData.tempId data) || fromMe then
    match reconcile fromMe data (State.messages st) with
    | None => None
    | Some (log, matched) =>
        let st' := State.setMessages (λ _, log) st in
        if matched then Some st'
        else Some (remoteInsert currentTime rnd data st')
    end
  else Some (remoteInsert currentTime rnd data st).

(** *** The other socket handlers *)

Definition on_messageUpdated (id text : string) (updatedAt : Z)
    (st : State.t) : State.t :=
  State.setMessages
    (fmap (λ msg, if bool_decide (Message.id msg = Some id)
                  then Message.with_edit text updatedAt msg else msg)) st.

Definition on_messageDeleted (id : string) (st : State.t) : State.t :=
  State.setMessages (filter (λ msg, Message.id msg ≠ Some id)) st.

Definition on_reactionUpdated (messageId : string) (reactions : Reactions)
    (st : State.t) : State.t :=
  State.setMessages
    (fmap (λ msg, if bool_decide (Message.id msg = Some messageId)
                  then Message.with_reactions reactions msg else msg)) st.

Definition on_chatCreated (newChat : Chat.t) (st : State.t) : State.t :=
  State.setChats (λ prev, newChat :: prev) st.

Definition on_connect (now : Z) (rnd : list nat) (st : State.t) : State.t :=
  let st := State.setConnected true (State.setStatus CONNECTED st) in
  let st :=
    (addMessage now rnd
       ("Connected to " +:+ UserSettings.serverUrl (State.settings st))
       "System" false true None st).2 in
  let st :=
    match State.activeChatId st with
    | Some c => if Js.truthy (Some c) then State.emit (EmitJoinChat c) st else st
    | None => st
    end in
  State.emit (EmitJoin (UserSettings.username (State.settings st))) st.

Definition on_connect_error (st : State.t) : State.t :=
  State.setStatus ERROR st.

Definition on_disconnect (now : Z) (rnd : list nat) (reason : string)
    (st : State.t) : State.t :=
  let st := State.setConnected false (State.setStatus DISCONNECTED st) in
  (addMessage now rnd ("Disconnected: " +:+ reason) "System" false true None st).2.

(** The events the socket delivers. *)
Inductive Inbound :=
  | InConnect
  | InConnectError
  | InDisconnect (reason : string)
  | InMessage (data : MessageData.t)
  | InMessageUpdated (id text : string) (updatedAt : Z)
  | InMessageDeleted (id : string)
  | InReactionUpdated (messageId : string) (reactions : Reactions)
  | InChatCreated (newChat : Chat.t).

(** The conversation identity an event carries: only ['message'] payloads
    have a [chatId] field. *)
Definition inbound_chatId (ev : Inbound) : option string :=
  match ev with
  | InMessage data => MessageData.chatId data
  | _ => None
  end.

Definition deliver (now : Z) (rnd : list nat) (ev : Inbound) (st : State.t)
    : option State.t :=
  match ev with
  | InConnect => Some (on_connect now rnd st)
  | InConnectError => Some (on_connect_error st)
  | InDisconnect reason => Some (on_disconnect now rnd reason st)
  | InMessage data => on_message now rnd data st
  | InMessageUpdated id text updatedAt =>
      Some (on_messageUpdated id text updatedAt st)
  | InMessageDeleted id => Some (on_messageDeleted id st)
  | InReactionUpdated messageId reactions =>
      Some (on_reactionUpdated messageId reactions st)
  | InChatCreated newChat => Some (on_chatCreated newChat st)
  end.

(** *** Switching the conversation and loading its history *)

(** The message [loadHistory] builds from a row of the history query. *)
Definition loadedMessage (settings : UserSettings.t) (dbMsg : DbMessage.t)
    : Message.t :=
  Message.mk
    (Some (DbMessage.id dbMsg))
    (DbMessage.content dbMsg)
    (Some (DbMessage.username dbMsg))
    (DbMessage.createdAt dbMsg)
    false
    (bool_decide (DbMessage.username dbMsg = UserSettings.username settings))
    (Some (DbMessage.messageType dbMsg))
    (DbMessage.mediaUrl dbMsg) (DbMessage.mediaType dbMsg)
    (DbMessage.mediaDuration dbMsg) (DbMessage.fileName dbMsg)
    (DbMessage.fileSize dbMsg)
    None
    (DbMessage.replyToId dbMsg) (DbMessage.chatId dbMsg)
    (Some (default ∅ (DbMessage.reactions dbMsg)))
    (DbMessage.isForwarded dbMsg) (DbMessage.forwardedFrom dbMsg).

(** [dbMessages.reverse().map(...)] *)
Definition loadedMessages (settings : UserSettings.t)
    (dbMessages : list DbMessage.t) : list Message.t :=
  loadedMessage settings <$> reverse dbMessages.

(** [loadHistory] up to its [await]: the log is cleared and the request for
    the active conversation is issued. *)
Definition loadHistory_begin (st : State.t) : State.t :=
  match State.activeChatId st with
  | Some c =>
      if Js.truthy (Some c)
      then State.setFetches (λ fs, fs ++ [c]) (State.setMessages (λ _, []) st)
      else st
  | None => st
  end.

(** Removes the first pending request for [c]. *)
Fixpoint answered (c : string) (fs : list string) : list string :=
  match fs with
  | [] => []
  | c' :: fs' => if bool_decide (c' = c) then fs' else c' :: answered c fs'
  end.

(** [loadHistory] from its [await] on, for the request that was issued for
    conversation [c]: [response] is the decoded body of an [ok] response,
    [None] a response that is not [ok] or a failed request.  Without a
    pending request for [c] there is nothing to resume. *)
Definition loadHistory_resume (c : string)
    (response : option (list DbMessage.t)) (st : State.t) : State.t :=
  if bool_decide (c ∈ State.fetches st) then
    let st := State.setFetches (answered c) st in
    match response with
    | Some dbMessages =>
        State.setMessages
          (λ _, loadedMessages (State.settings st) dbMessages) st
    | None => st
    end
  else st.

(** [setActiveChatId(id)] and the effect that runs on the change.  Setting
    the id that is the active one already is no change of state: nothing is
    rendered again and the effect, whose dependencies are what they were,
    does not run. *)
Definition selectChat (id : string) (st : State.t) : State.t :=
  if bool_decide (State.activeChatId st = Some id) then st
  else
    let st := State.setActiveChatId (Some id) st in
    if negb (bool_decide (State.status st = CONNECTED))
       || UserSettings.isDemoMode (State.settings st)
    then st
    else
      let st := loadHistory_begin st in
      if State.connected st && Js.truthy (State.activeChatId st)
      then State.emit (EmitJoinChat id) st
      else st.

(** *** The action dispatcher *)

Definition DEMO_RESPONSES : list string :=
  [ "Roger that. Signal is clear.";
    "Interference detected in sector 7.";
    "Copy. Holding position.";
    "Network check: latency 4ms.";
    "System optimal.";
    "Did you catch the broadcast?";
    "Keep the channel open." ].

(** The callback of the demo timer; [k] is the index drawn. *)
Definition demoReply (now : Z) (rnd : list nat) (k : nat) (st : State.t)
    : State.t :=
  match State.timers st with
  | O => st
  | S n =>
      (addMessage now rnd (default "" (DEMO_RESPONSES !! k)) "Operator"
         false false None (State.setTimers n st)).2
  end.

(** [settingsRef.current.username?.trim() || 'Anonymous'] *)
Definition senderOrAnonymous (st : State.t) : string :=
  Js.or_default
    (Some (Js.trim (UserSettings.username (State.settings st)))) "Anonymous".

(** [chatId: activeChatId || undefined] *)
Definition activeOrUndefined (st : State.t) : option string :=
  if Js.truthy (State.activeChatId st) then State.activeChatId st else None.

(** [if (activeChatId) setChats(...)] of the two senders. *)
Definition bumpActiveChat (now : Z) (st : State.t) : State.t :=
  match State.activeChatId st with
  | Some c =>
      if Js.truthy (Some c) then State.setChats (moveChatToTop c now) st
      else st
  | None => st
  end.

Definition sendMessage (now : Z) (rnd rnd' : list nat) (text : string)
    (replyToId : option string) (st : State.t) : State.t :=
  if String.eqb text "" then st
  else
    let trimmedText := Js.trim text in
    if String.eqb trimmedText "" then st
    else
      let username := senderOrAnonymous st in
      if String.eqb username "" then st
      else
        let '(tempId, st) :=
          addMessage now rnd trimmedText username true false replyToId st in
        if UserSettings.isDemoMode (State.settings st) then
          State.setTimers (S (State.timers st)) st
        else if State.connected st then
          let messageData :=
            Outgoing.mk username None trimmedText (Some tempId) replyToId
              (activeOrUndefined st) None None None None None None None None in
          if String.eqb (Outgoing.text messageData) ""
             || String.eqb (Outgoing.user messageData) ""
          then
            (addMessage now rnd' "Error: Invalid message format" "System"
               false true None st).2
          else bumpActiveChat now (State.emit (EmitMessage messageData) st)
        else
          (addMessage now rnd' "Message not sent: Disconnected" "System"
             false true None st).2.

Definition clearMessages (st : State.t) : State.t :=
  State.setMessages (λ _, []) st.

Definition sendMediaMessage (now : Z) (rnd rnd' : list nat)
    (uploadData : UploadData.t) (replyToId caption : option string)
    (st : State.t) : State.t :=
  let username := senderOrAnonymous st in
  let messageText :=
    Js.or_default caption
      ("[" +:+ Js.toUpperCase (UploadData.messageType uploadData) +:+ "] "
       +:+ UploadData.fileName uploadData) in
  let tempId := Js.randomId rnd in
  let localMessage :=
    Message.mk (Some tempId) messageText (Some username) now false true
      (Some (UploadData.messageType uploadData))
      (Some (UploadData.mediaUrl uploadData))
      (Some (UploadData.mediaType uploadData))
      (UploadData.mediaDuration uploadData)
      (Some (UploadData.fileName uploadData))
      (Some (UploadData.fileSize uploadData))
      None replyToId None None None None in
  let st := State.setMessages (λ prev, prev ++ [localMessage]) st in
  if UserSettings.isDemoMode (State.settings st) then st
  else if State.connected st then
    let messageData :=
      Outgoing.mk username (Some username) messageText (Some tempId) replyToId
        (activeOrUndefined st)
        (Some (UploadData.messageType uploadData))
        (Some (UploadData.mediaUrl uploadData))
        (Some (UploadData.mediaType uploadData))
        (Some (UploadData.fileName uploadData))
        (Some (UploadData.fileSize uploadData))
        (UploadData.mediaDuration uploadData)
        None None in
    bumpActiveChat now (State.emit (EmitMessage messageData) st)
  else
    (addMessage now rnd' "Media not sent: Disconnected" "System"
       false true None st).2.

Definition editMessage (now : Z) (id newText : string) (st : State.t)
    : State.t :=
  if negb (State.connected st) then st
  else
    State.emit (EmitEditMessage id newText)
      (State.setMessages
         (fmap (λ msg, if bool_decide (Message.id msg = Some id)
                       then Message.with_edit newText now msg else msg)) st).

Definition deleteMessage (id : string) (st : State.t) : State.t :=
  if negb (State.connected st) then st
  else
    State.emit (EmitDeleteMessage id)
      (State.setMessages (filter (λ msg, Message.id msg ≠ Some id)) st).

Definition createChat (name : string) (description : option string)
    (st : State.t) : State.t :=
  if negb (State.connected st) then st
  else State.emit (EmitCreateChat name description) st.

(** The reaction map [toggleReaction] computes for one message. *)
Definition toggled (username emoji : string) (old : option Reactions)
    : Reactions :=
  let reactions := default ∅ old in
  let currentReactors := default [] (reactions !! emoji) in
  let newReactors :=
    if bool_decide (username ∈ currentReactors)
    then filter (λ u, u ≠ username) currentReactors
    else currentReactors ++ [username] in
  if bool_decide (length newReactors = 0%nat) then delete emoji reactions
  else <[emoji := newReactors]> reactions.

Definition toggleReaction (messageId emoji : string) (st : State.t)
    : State.t :=
  if negb (State.connected st) then st
  else
    let username := UserSettings.username (State.settings st) in
    State.emit (EmitToggleReaction messageId emoji username)
      (State.setMessages
         (fmap (λ msg,
            if bool_decide (Message.id msg = Some messageId)
            then Message.with_reactions
                   (toggled username emoji (Message.reactions msg)) msg
            else msg)) st).

Definition forwardMessage (message : Message.t) (targetChatId : string)
    (st : State.t) : State.t :=
  if negb (State.connected st) then st
  else
    let username := UserSettings.username (State.settings st) in
    let forwardData :=
      Outgoing.mk username (Some username) (Message.text message) None None
        (Some targetChatId)
        (Message.messageType message) (Message.mediaUrl message)
        (Message.mediaType message) (Message.fileName message)
        (Message.fileSize message) (Message.mediaDuration message)
        (Some true) (Message.sender message) in
    State.emit (EmitMessage forwardData) st.

(** The user intents the dispatcher serves. *)
Inductive Action :=
  | SendText (text : string) (replyToId : option string)
  | SendMedia (uploadData : UploadData.t) (replyToId caption : option string)
  | Edit (id newText : string)
  | Delete (id : string)
  | React (messageId emoji : string)
  | Forward (message : Message.t) (targetChatId : string)
  | CreateChat (name : string) (description : option string).

Definition dispatch (now : Z) (rnd rnd' : list nat) (a : Action)
    (st : State.t) : State.t :=
  match a with
  | SendText text replyToId => sendMessage now rnd rnd' text replyToId st
  | SendMedia uploadData replyToId caption =>
      sendMediaMessage now rnd rnd' uploadData replyToId caption st
  | Edit id newText => editMessage now id newText st
  | Delete id => deleteMessage id st
  | React messageId emoji => toggleReaction messageId emoji st
  | Forward message targetChatId => forwardMessage message targetChatId st
  | CreateChat name description => createChat name description st
  end.

(** ** Predicates on the log *)

(** Every entry has an id, as [types.ts] declares. *)
Definition well_typed (log : list Message.t) : Prop :=
  Forall (λ m, is_Some (Message.id m)) log.

(** The id of an entry contains a hyphen. *)
Definition hyphenated (m : Message.t) : Prop :=
  ∃ i, Message.id m = Some i ∧ Js.includes "-" i = true.

(** The id of an entry is a string without a hyphen. *)
Definition plainId (m : Message.t) : Prop :=
  match Message.id m with
  | Some i => Js.includes "-" i = false
  | None => False
  end.

#[global] Instance plainId_dec m : Decision (plainId m).
Proof. unfold plainId. destruct (Message.id m); apply _. Defined.

(** The entries the second disjunct of the reconciliation callback selects
    for an event of the current user: the body of the event, and an id
    without a hyphen. *)
Definition fallbackSelects (data : MessageData.t) (m : Message.t) : Prop :=
  Message.text m = MessageData.text data ∧ plainId m.

#[global] Instance fallbackSelects_dec data m : Decision (fallbackSelects data m).
Proof. unfold fallbackSelects. apply _. Defined.

(** The number of entries that bear the id [i]. *)
Definition bearing (i : string) (log : list Message.t) : nat :=
  length (filter (λ m, Message.id m = Some i) log).


(** ** Sample states and events *)

Definition settingsOf (username : string) : UserSettings.t :=
  UserSettings.mk username "http://localhost:3000" false.

Definition stateOf (username : string) (log : list Message.t)
    (chats : list Chat.t) (active : option string) (live : bool) : State.t :=
  State.mk log chats active (if live then CONNECTED else DISCONNECTED) live
    (settingsOf username) [] [] 0.

Definition textMessage (id text sender : string) (ts : Z) (isMe : bool)
    : Message.t :=
  Message.mk (Some id) text (Some sender) ts false isMe
    None None None None None None None None None None None None.

Definition eventOf (id tempId user : option string) (text : string)
    (createdAt : option Z) (chatId : option string) : MessageData.t :=
  MessageData.mk id tempId user None text createdAt
    None None None None None None None chatId None None.

Definition chatOf (id : string) : Chat.t := Chat.mk id id None None 0.

Definition history_row (id username content : string) (createdAt : Z)
    : DbMessage.t :=
  DbMessage.mk id username content createdAt "text"
    None None None None None None None None None None.

(** The optimistic entry ["tmp1"] of the user Alice, and its echo. *)
Definition echo_state : State.t :=
  stateOf "Alice" [textMessage "tmp1" "hi" "Alice" 100 true] [] None true.

Definition echo_event : MessageData.t :=
  eventOf (Some "srv42") (Some "tmp1") (Some "Alice") "hi" (Some 777%Z) None.




(** A first message of Bob, in an empty log. *)
Definition remote_event : MessageData.t :=
  eventOf (Some "srv1") None (Some "Bob") "hey" (Some 900%Z) None.

Definition remote_state : State.t := stateOf "Alice" [] [] None true.

(** Conversation ["C2"] is active, the event is tagged ["C1"]. *)
Definition isolation_event : MessageData.t :=
  eventOf (Some "srv1") None (Some "Bob") "hey" None (Some "C1").

Definition isolation_state : State.t :=
  stateOf "Alice" [textMessage "m-1" "yo" "Carol" 50 false]
    [chatOf "C2"; chatOf "C1"] (Some "C2") true.

(** The log holds a ["hi"] of Bob that the server stamped an hour ahead of
    the local clock, which reads 15000; Bob says ["hi"] again. *)
Definition skewed_state : State.t :=
  stateOf "Alice" [textMessage "a-1" "hi" "Bob" 3615000 false] [] None true.

Definition skewed_event : MessageData.t :=
  eventOf (Some "b-2") None (Some "Bob") "hi" None None.

(** The log holds a ["hey"] of Bob stamped 15000; the event is another
    ["hey"] of Bob, under another id. *)
Definition repeated_state : State.t :=
  stateOf "Alice" [textMessage "srv0" "hey" "Bob" 15000 false] [] None true.

(** Alice is offline, demo mode is off, and the log holds one message of
    hers. *)
Definition offline_state : State.t :=
  stateOf "Alice" [textMessage "m-1" "draft" "Alice" 50 true]
    [chatOf "C1"] (Some "C1") false.

(** Two conversations, a live connection, none selected yet; a row of the
    history of each. *)
Definition history_state : State.t :=
  stateOf "Alice" [] [chatOf "A"; chatOf "B"] None true.

Definition rowsA : list DbMessage.t := [history_row "a-1" "Bob" "posted in A" 10].
Definition rowsB : list DbMessage.t := [history_row "b-1" "Carol" "posted in B" 20].

(** The user opens A, then B before the history of A has arrived; the
    history of B arrives, then the history of A. *)
Definition switched_state : State.t :=
  selectChat "B" (selectChat "A" history_state).

Definition stale_state : State.t :=
  loadHistory_resume "A" (Some rowsA)
    (loadHistory_resume "B" (Some rowsB) switched_state).

(** Alice is connected, A is active, the directory lists A before C. *)
Definition directory_state : State.t :=
  stateOf "Alice" [textMessage "m-1" "look" "Bob" 50 false]
    [chatOf "A"; chatOf "C"] (Some "A") true.


(** Alice is connected, C is active, the directory lists A before C. *)
Definition active_C_state : State.t :=
  stateOf "Alice" [] [chatOf "A"; chatOf "C"] (Some "C") true.

(** The history lists a message of ["alice"]; the display name is
    ["Alice"]. *)
Definition lowercase_row : DbMessage.t := history_row "h-1" "alice" "earlier" 10.

(** A message of Alice herself that arrives without a token and matches no
    entry, as one sent from a second device does. *)
Definition own_remote_event : MessageData.t :=
  eventOf (Some "srv-9") None (Some "Alice") "from my phone" (Some 900%Z) None.

(** The message an edit, delete or reaction event refers to. *)
Definition delta_id (ev : Inbound) : option string :=
  match ev with
  | InMessageUpdated id _ _ => Some id
  | InMessageDeleted id => Some id
  | InReactionUpdated messageId _ => Some messageId
  | _ => None
  end.

(** The echo of a text that Alice sent with the random digits
    [1 .. 8], which give the id ["678"]. *)
Definition sent_echo : MessageData.t :=
  eventOf (Some "srv-7") (Some "678") (Some "Alice") "hello" (Some 2000%Z)
    (Some "C").

(** An uploaded picture, and the echo of its message. *)
Definition picture : UploadData.t :=
  UploadData.mk "image" "/uploads/cat.png" "image/png" "cat.png" 2048 None.

Definition picture_echo : MessageData.t :=
  MessageData.mk (Some "srv-8") (Some "678") (Some "Alice") (Some "Alice")
    "[IMAGE] cat.png" (Some 2000%Z) (Some "image") (Some "/uploads/cat.png")
    (Some "image/png") None (Some "cat.png") (Some 2048%Z) None (Some "C")
    None None.

(** The echo of ["tmp1"] as a server without ids would send it. *)
Definition idless_echo : MessageData.t :=
  eventOf None (Some "tmp1") (Some "Alice") "hi" None None.

(** ** The components that call the hook *)

(** *** [App.tsx] *)

(** The settings [handleSaveSettings] stores. *)
Definition handleSaveSettings (newSettings : UserSettings.t)
    : UserSettings.t :=
  UserSettings.mk (Js.trim (UserSettings.username newSettings))
    (UserSettings.serverUrl newSettings)
    (UserSettings.isDemoMode newSettings).

(** [chats.find(c => c.id === activeChatId)] *)
Definition activeChat (st : State.t) : option Chat.t :=
  snd <$> list_find (λ c, Some (Chat.id c) = State.activeChatId st)
            (State.chats st).

(** *** [components/ForwardModal.tsx] *)

(** [currentChatId={activeChat?.id || null}] *)
Definition currentChatId (st : State.t) : option string :=
  Js.js_or (Chat.id <$> activeChat st) None.

(** [chats.filter(chat => chat.id !== currentChatId)] *)
Definition availableChats (chats : list Chat.t) (current : option string)
    : list Chat.t :=
  filter (λ chat, Some (Chat.id chat) ≠ current) chats.

(** *** [components/ChatList.tsx] *)


(** *** [components/ChatView.tsx] *)

(** The state of the input row. *)
Module Composer.
Record t := mk {
  input : string;
  editingMessageId : option string;
  replyingToMessage : option Message.t;
  pendingUpload : option UploadData.t
}.
End Composer.

(** [truncateText(text, length = 20)]; the callers pass [undefined] too. *)
Definition truncateText (text : option string) (length : nat) : string :=
  match text with
  | Some text =>
      if String.eqb text "" then ""
      else if (length <? String.length text)%nat
           then String.substring 0 length text +:+ "..."
           else text
  | None => ""
  end.

(** [replyingToMessage?.id] *)
Definition replyId (ui : Composer.t) : option string :=
  match Composer.replyingToMessage ui with
  | Some msg => Message.id msg
  | None => None
  end.

(** [input.trim() || undefined] *)
Definition captionOf (input : string) : option string :=
  if String.eqb (Js.trim input) "" then None else Some (Js.trim input).

Definition handleSend (now : Z) (rnd rnd' : list nat) (ui : Composer.t)
    (st : State.t) : Composer.t * State.t :=
  if String.eqb (Js.trim (Composer.input ui)) ""
     && negb (bool_decide (is_Some (Composer.pendingUpload ui)))
     && negb (UserSettings.isDemoMode (State.settings st))
  then (ui, st)
  else if Js.truthy (Composer.editingMessageId ui) then
    (Composer.mk "" None (Composer.replyingToMessage ui)
       (Composer.pendingUpload ui),
     editMessage now (default "" (Composer.editingMessageId ui))
       (Composer.input ui) st)
  else
    match Composer.pendingUpload ui with
    | Some upload =>
        (Composer.mk "" (Composer.editingMessageId ui) None None,
         sendMediaMessage now rnd rnd' upload (replyId ui)
           (captionOf (Composer.input ui)) st)
    | None =>
        (Composer.mk "" (Composer.editingMessageId ui) None None,
         sendMessage now rnd rnd' (Composer.input ui) (replyId ui) st)
    end.

(** [s.padStart(n, c)] *)
Definition padStart (n : nat) (c : ascii) (s : string) : string :=
  String.string_of_list_ascii (replicate (n - String.length s) c) +:+ s.

(** [formatDuration], on a whole number of seconds. *)
Definition formatDuration (seconds : nat) : string :=
  let mins := (seconds / 60)%nat in
  let secs := (seconds mod 60)%nat in
  pretty mins +:+ ":" +:+ padStart 2 "0" (pretty secs).

(** The condition under which a bubble shows the text of its message. *)
Definition showsText (msg : Message.t) : bool :=
  negb (String.eqb (Message.text msg) "")
  && (negb (Js.truthy (Message.mediaUrl msg))
      || (negb (String.prefix "[IMAGE]" (Message.text msg))
          && negb (String.prefix "[VIDEO]" (Message.text msg))
          && negb (String.prefix "[AUDIO]" (Message.text msg))
          && negb (String.prefix "[FILE]" (Message.text msg)))).

(** An input row in which nothing is edited or replied to. *)
Definition composing (input : string) (upload : option UploadData.t)
    : Composer.t :=
  Composer.mk input None None upload.

(** ** Concrete runs *)

(** The embedding on concrete inputs. *)
Example trim_lower : Js.toLowerCase (Js.trim "  Alice ") = "alice".
Proof. reflexivity. Qed.

Example randomId_digits : Js.randomId [1; 2; 3; 4; 5; 6; 7; 8; 35; 10] = "678za".
Proof. reflexivity. Qed.

Example randomId_short : Js.randomId [18] = "".
Proof. reflexivity. Qed.

Example echo_scenario :
  on_message 5000 [] echo_event echo_state
  = Some (stateOf "Alice" [textMessage "srv42" "hi" "Alice" 777 true] [] None true).
Proof. reflexivity. Qed.

(** Two unconfirmed entries with one body: the echo of the first, which is
    the current user's, is matched by its token and, through the second
    disjunct of the callback, by the other entry as well. *)
Example echo_of_repeated_body :
  (State.messages <$>
     on_message 5000 [] echo_event
       (stateOf "Alice" [textMessage "tmp1" "hi" "Alice" 100 true;
                         textMessage "tmp2" "hi" "Alice" 101 true] [] None true))
  = Some [textMessage "srv42" "hi" "Alice" 777 true;
          textMessage "srv42" "hi" "Alice" 777 true].
Proof. reflexivity. Qed.

(** ** Lemmas on the reconciliation pass *)

Section Reconcile.

Context (fromMe : bool) (data : MessageData.t).

Lemma reconcile_Some prev log matched :
  reconcile fromMe data prev = Some (log, matched) →
  Forall2 (λ m m', ∃ hit, reconciles fromMe data m = Some hit
                          ∧ m' = if hit then synced data m else m) prev log
  ∧ (matched = true ↔ Exists (λ m, reconciles fromMe data m = Some true) prev).
Proof.
  revert log matched.
  induction prev as [|m prev IH]; intros log matched; simpl.
  - intros [= <- <-]. split; [constructor|].
    split; [discriminate|]. intros H. inversion H.
  - destruct (reconciles fromMe data m) as [hit|] eqn:Hm; [|discriminate].
    destruct (reconcile fromMe data prev) as [[rest' matched']|] eqn:Hr;
      [|discriminate].
    intros [= <- <-].
    destruct (IH _ _ eq_refl) as [IH1 IH2]. split.
    + constructor; [exists hit; done | done].
    + rewrite Exists_cons, <- IH2, Hm.
      destruct hit, matched'; simpl; intuition congruence.
Qed.

Lemma reconciles_typed m :
  is_Some (Message.id m) → is_Some (reconciles fromMe data m).
Proof.
  intros [i Hi]. unfold reconciles. rewrite Hi.
  case_bool_decide; [done|]. destruct (_ && _); done.
Qed.

Lemma reconcile_typed prev :
  well_typed prev → is_Some (reconcile fromMe data prev).
Proof.
  induction 1 as [|m prev Hm _ IH]; simpl; [done|].
  destruct (reconciles_typed m Hm) as [hit ->].
  destruct IH as [[rest' matched] ->]. done.
Qed.

Lemma reconcile_length prev log matched :
  reconcile fromMe data prev = Some (log, matched) → length log = length prev.
Proof.
  intros H. apply reconcile_Some in H as [H _].
  symmetry. by eapply Forall2_length.
Qed.

Lemma reconcile_lookup prev log matched i m :
  reconcile fromMe data prev = Some (log, matched) →
  prev !! i = Some m →
  ∃ hit, reconciles fromMe data m = Some hit
         ∧ log !! i = Some (if hit then synced data m else m).
Proof.
  intros H Hi. apply reconcile_Some in H as [H _].
  destruct (Forall2_lookup_l _ _ _ _ _ H Hi) as (m' & Hm' & hit & Hhit & ->).
  eauto.
Qed.

(** Without a match the pass returns the log as it was. *)
Lemma reconcile_unmatched prev log :
  reconcile fromMe data prev = Some (log, false) → log = prev.
Proof.
  revert log. induction prev as [|m prev IH]; intros log; simpl.
  - by intros [= <-].
  - destruct (reconciles fromMe data m) as [hit|]; [|discriminate].
    destruct (reconcile fromMe data prev) as [[rest' matched']|];
      [|discriminate].
    intros [= <- Hf]. apply orb_false_iff in Hf as [-> ->].
    f_equal. by apply IH.
Qed.

End Reconcile.

Lemma setMessages_id st : State.setMessages (λ _, State.messages st) st = st.
Proof. by destruct st. Qed.

Lemma truthy_Some s : s ≠ "" → Js.truthy (Some s) = true.
Proof.
  intros Hs. simpl. destruct (String.eqb_spec s ""); [done | done].
Qed.

Lemma truthy_true o : Js.truthy o = true → ∃ s, o = Some s ∧ s ≠ "".
Proof.
  destruct o as [s|]; simpl; [|done].
  destruct (String.eqb_spec s ""); [done|]. eauto.
Qed.

Lemma well_typed_elem log m :
  well_typed log → m ∈ log → is_Some (Message.id m).
Proof. unfold well_typed. rewrite Forall_forall. auto. Qed.

Lemma well_typed_lookup log i m :
  well_typed log → log !! i = Some m → is_Some (Message.id m).
Proof. unfold well_typed. rewrite Forall_lookup. eauto. Qed.

Create HintDb chatlog.
#[global] Hint Resolve well_typed_elem well_typed_lookup truthy_Some : chatlog.

Lemma reconciles_token fromMe data m :
  Message.id m = MessageData.tempId data →
  reconciles fromMe data m = Some true.
Proof. intros H. unfold reconciles. by rewrite bool_decide_eq_true_2. Qed.

(** ** Echo reconciliation by correlation token *)



(** ** Echo reconciliation without a token *)






(** ** Remote insert *)

Lemma remoteInsert_present now rnd data st :
  Js.truthy (MessageData.id data) = true →
  Exists (λ m, Message.id m = MessageData.id data) (State.messages st) →
  remoteInsert now rnd data st = st.
Proof.
  intros Ht Hex. unfold remoteInsert. rewrite Ht.
  by rewrite bool_decide_eq_true_2.
Qed.

(** The early return after a match and the fall-through agree when the
    event carries an id: a matched pass leaves an entry that bears the id,
    so the remote-insert step would return the state it is given. *)
Lemma reconcile_matched_present fromMe data prev log :
  reconcile fromMe data prev = Some (log, true) →
  Exists (λ m, Message.id m = MessageData.id data) log.
Proof.
  intros Hrec. pose proof (reconcile_Some _ _ _ _ _ Hrec) as [Hall Hm].
  destruct Hm as [Hm _]. specialize (Hm eq_refl).
  apply Exists_exists in Hm as (m & Hin & Hhit).
  apply list_elem_of_lookup in Hin as (i & Hi).
  destruct (reconcile_lookup _ _ _ _ _ _ _ Hrec Hi) as (hit & Hhit' & Hlog).
  rewrite Hhit in Hhit'. injection Hhit' as <-.
  apply Exists_exists. exists (synced data m). split; [|done].
  by eapply list_elem_of_lookup_2.
Qed.

Lemma matched_return_is_fall_through now rnd fromMe data st log :
  Js.truthy (MessageData.id data) = true →
  reconcile fromMe data (State.messages st) = Some (log, true) →
  remoteInsert now rnd data (State.setMessages (λ _, log) st)
  = State.setMessages (λ _, log) st.
Proof.
  intros Ht Hrec. apply remoteInsert_present; [done|].
  by eapply reconcile_matched_present.
Qed.

(** The two outcomes of the remote-insert step: the state as it was, or the
    new message at the end of the log, the directory passed through
    [moveChatToTop] when the event names a conversation, and nothing else
    touched. *)
Lemma remoteInsert_cases now rnd data st :
  remoteInsert now rnd data st = st
  ∨ State.messages (remoteInsert now rnd data st)
    = State.messages st ++ [newMessage now rnd data]
    ∧ State.chats (remoteInsert now rnd data st)
      = match MessageData.chatId data with
        | Some cid =>
            if Js.truthy (Some cid)
            then moveChatToTop cid (Message.timestamp (newMessage now rnd data))
                   (State.chats st)
            else State.chats st
        | None => State.chats st
        end
    ∧ State.settings (remoteInsert now rnd data st) = State.settings st
    ∧ State.activeChatId (remoteInsert now rnd data st) = State.activeChatId st
    ∧ State.sent (remoteInsert now rnd data st) = State.sent st.
Proof.
  unfold remoteInsert.
  destruct (_ && _); [by left|].
  destruct (list_find _ _); [by left|].
  destruct (forOtherChat st data); [by left|].
  right. destruct (MessageData.chatId data) as [cid|]; [|done].
  destruct (Js.truthy (Some cid)); done.
Qed.

Lemma bearing_app i l1 l2 : bearing i (l1 ++ l2) = (bearing i l1 + bearing i l2)%nat.
Proof. unfold bearing. by rewrite filter_app, length_app. Qed.

Lemma bearing_pos i log :
  (0 < bearing i log)%nat ↔ Exists (λ m, Message.id m = Some i) log.
Proof.
  unfold bearing. induction log as [|m log IH]; simpl.
  - split; [lia|]. intros H. inversion H.
  - rewrite Exists_cons, <- IH, filter_cons.
    case_decide; simpl; intuition lia.
Qed.

Lemma newMessage_id now rnd data :
  Js.truthy (MessageData.id data) = true →
  Message.id (newMessage now rnd data) = MessageData.id data.
Proof. intros Ht. simpl. by rewrite Ht. Qed.

Lemma isFromMe_settings st st' data :
  State.settings st' = State.settings st → isFromMe st' data = isFromMe st data.
Proof. intros H. unfold isFromMe, currentUserName. by rewrite H. Qed.

(** An event without a token that is not the current user's goes to the
    remote-insert step. *)
Lemma on_message_remote now rnd data st :
  Js.truthy (MessageData.tempId data) = false → isFromMe st data = false →
  on_message now rnd data st = Some (remoteInsert now rnd data st).
Proof.
  intros Ht Hme. unfold on_message. rewrite Ht, Hme. simpl.
  destruct (forOtherChat st data) eqn:Hiso; [|done].
  f_equal. unfold remoteInsert.
  destruct (_ && _); [done|]. destruct (list_find _ _); [done|].
  by rewrite Hiso.
Qed.

(** The three ways the handler ends: the event is for another
    conversation, the reconciliation pass matched, or the remote-insert
    step ran on the state as it was. *)
Lemma on_message_cases now rnd data st st' :
  on_message now rnd data st = Some st' →
  st' = st
  ∨ (∃ log, reconcile (isFromMe st data) data (State.messages st)
            = Some (log, true)
            ∧ st' = State.setMessages (λ _, log) st)
  ∨ st' = remoteInsert now rnd data st.
Proof.
  unfold on_message. intros Hrun.
  destruct (forOtherChat st data); [left; congruence|].
  destruct (_ || _); [|right; right; congruence].
  destruct (reconcile _ _ _) as [[log matched]|] eqn:Hrec; [|done].
  destruct matched; injection Hrun as <-.
  - right. left. eauto.
  - right. right. apply reconcile_unmatched in Hrec as ->.
    by rewrite setMessages_id.
Qed.

(** On a typed log the handler does not throw, and an event that carries
    an id leaves the log typed. *)
Lemma on_message_total now rnd data st :
  well_typed (State.messages st) → is_Some (on_message now rnd data st).
Proof.
  intros Hty. unfold on_message.
  destruct (forOtherChat st data); [done|].
  destruct (_ || _); [|done].
  destruct (reconcile_typed (isFromMe st data) data _ Hty) as [[log m] ->].
  by destruct m.
Qed.

Lemma remoteInsert_well_typed now rnd data st :
  well_typed (State.messages st) →
  well_typed (State.messages (remoteInsert now rnd data st)).
Proof.
  intros Hty.
  destruct (remoteInsert_cases now rnd data st) as [->|(-> & _)]; [done|].
  apply Forall_app. split; [done|]. constructor; [|constructor].
  simpl. destruct (Js.truthy (MessageData.id data)) eqn:Ht; [|done].
  apply truthy_true in Ht as (i & -> & _). done.
Qed.

Lemma reconcile_well_typed fromMe data prev log matched :
  well_typed prev → is_Some (MessageData.id data) →
  reconcile fromMe data prev = Some (log, matched) → well_typed log.
Proof.
  intros Hty Hid Hrec. apply reconcile_Some in Hrec as [Hall _].
  unfold well_typed in *.
  induction Hall as [|m m' prev log (hit & _ & ->) _ IH]; [done|].
  apply Forall_cons in Hty as [Hm Hprev]. constructor; [|by apply IH].
  destruct hit; done.
Qed.

Lemma on_message_well_typed now rnd data st st' :
  well_typed (State.messages st) → is_Some (MessageData.id data) →
  on_message now rnd data st = Some st' →
  well_typed (State.messages st').
Proof.
  intros Hty Hid Hrun.
  destruct (on_message_cases _ _ _ _ _ Hrun) as [->|[(log & Hrec & ->)| ->]].
  - done.
  - by eapply reconcile_well_typed.
  - by apply remoteInsert_well_typed.
Qed.

(** The remote-insert step adds the message when nothing stands against
    it: no entry bears the id, none is a duplicate by content, and the
    event is not for another conversation. *)
Lemma remoteInsert_appends now rnd data st :
  (Js.truthy (MessageData.id data) = true →
   ¬ Exists (λ m, Message.id m = MessageData.id data) (State.messages st)) →
  ¬ Exists (isDuplicate now data) (State.messages st) →
  forOtherChat st data = false →
  State.messages (remoteInsert now rnd data st)
  = State.messages st ++ [newMessage now rnd data].
Proof.
  intros Hfresh Hnodup Hiso. unfold remoteInsert.
  destruct (Js.truthy (MessageData.id data)) eqn:Ht; simpl.
  - rewrite bool_decide_eq_false_2 by (by apply Hfresh).
    destruct (list_find _ _) as [[i m]|] eqn:Hfind.
    + exfalso. apply Hnodup. apply list_find_Some in Hfind as (Hi & Hd & _).
      apply Exists_exists. exists m. split; [|done].
      by eapply list_elem_of_lookup_2.
    + rewrite Hiso. destruct (MessageData.chatId data) as [cid|]; [|done].
      by destruct (String.eqb cid "").
  - destruct (list_find _ _) as [[i m]|] eqn:Hfind.
    + exfalso. apply Hnodup. apply list_find_Some in Hfind as (Hi & Hd & _).
      apply Exists_exists. exists m. split; [|done].
      by eapply list_elem_of_lookup_2.
    + rewrite Hiso. destruct (MessageData.chatId data) as [cid|]; [|done].
      by destruct (String.eqb cid "").
Qed.

Lemma bearing_newMessage now rnd data sid :
  MessageData.id data = Some sid → sid ≠ "" →
  bearing sid [newMessage now rnd data] = 1%nat.
Proof.
  intros Hid Hne. unfold bearing.
  rewrite filter_cons, decide_True; [done|].
  rewrite newMessage_id; [done|]. rewrite Hid. by apply truthy_Some.
Qed.

(** C3.  For an event with the server id [sid].  When an entry of the log
    bears [sid] already, the remote-insert step returns the state as it
    was.  When no entry bears it and the step accepts the event (no entry
    is a duplicate of it by content, and it is not for another
    conversation), the step adds one entry, which bears [sid], so that
    exactly one entry bears it, and a second delivery, at any time, changes
    nothing: one entry bears [sid] after both.  Accepted or not, two
    deliveries never leave more than one entry bearing [sid] in a log that
    had none.  The handler runs exactly this step, both times, on an event
    without a token that is not the current user's. *)
Theorem redelivery_is_idempotent now rnd data st sid :
  MessageData.id data = Some sid → sid ≠ "" →
  (Exists (λ m, Message.id m = Some sid) (State.messages st) →
   remoteInsert now rnd data st = st)
  ∧ (bearing sid (State.messages st) = 0%nat →
     ¬ Exists (isDuplicate now data) (State.messages st) →
     forOtherChat st data = false →
     State.messages (remoteInsert now rnd data st)
     = State.messages st ++ [newMessage now rnd data]
     ∧ Message.id (newMessage now rnd data) = Some sid
     ∧ bearing sid (State.messages (remoteInsert now rnd data st)) = 1%nat
     ∧ ∀ now' rnd',
         remoteInsert now' rnd' data (remoteInsert now rnd data st)
         = remoteInsert now rnd data st
         ∧ bearing sid
             (State.messages
                (remoteInsert now' rnd' data (remoteInsert now rnd data st)))
           = 1%nat)
  ∧ (bearing sid (State.messages st) = 0%nat →
     ∀ now' rnd',
       (bearing sid
          (State.messages
             (remoteInsert now' rnd' data (remoteInsert now rnd data st)))
        ≤ 1)%nat)
  ∧ (Js.truthy (MessageData.tempId data) = false →
     isFromMe st data = false →
     on_message now rnd data st = Some (remoteInsert now rnd data st)
     ∧ ∀ now' rnd',
         on_message now' rnd' data (remoteInsert now rnd data st)
         = Some (remoteInsert now' rnd' data (remoteInsert now rnd data st))).
Proof.
  intros Hid Hne.
  assert (Js.truthy (MessageData.id data) = true) as Ht
    by (rewrite Hid; by apply truthy_Some).
  assert (∀ t r (s : State.t),
            State.messages s = State.messages st ++ [newMessage now rnd data] →
            remoteInsert t r data s = s) as Hagain.
  { intros t r s Hlog. apply remoteInsert_present; [done|].
    rewrite Hlog, Exists_app. right. constructor. by apply newMessage_id. }
  split; [|split; [|split]].
  - intros Hex. apply remoteInsert_present; [done|]. by rewrite Hid.
  - intros Hzero Hnodup Hiso.
    assert (State.messages (remoteInsert now rnd data st)
            = State.messages st ++ [newMessage now rnd data]) as Hlog.
    { apply remoteInsert_appends; [|done..].
      intros _ Hex. rewrite Hid in Hex. apply bearing_pos in Hex. lia. }
    assert (bearing sid (State.messages (remoteInsert now rnd data st))
            = 1%nat) as Hone
      by (by rewrite Hlog, bearing_app, Hzero, (bearing_newMessage _ _ _ sid)).
    split; [exact Hlog|]. split; [by rewrite newMessage_id|].
    split; [exact Hone|].
    intros now' rnd'. rewrite (Hagain now' rnd' _ Hlog). by split.
  - intros Hzero now' rnd'.
    destruct (remoteInsert_cases now rnd data st) as [->|(Hlog & _)].
    + destruct (remoteInsert_cases now' rnd' data st) as [->|(Hlog' & _)].
      * lia.
      * rewrite Hlog', bearing_app, Hzero,
          (bearing_newMessage _ _ _ sid) by done. lia.
    + rewrite (Hagain now' rnd' _ Hlog), Hlog, bearing_app, Hzero,
        (bearing_newMessage _ _ _ sid) by done. lia.
  - intros Htok Hme. split; [by apply on_message_remote|].
    intros now' rnd'. apply on_message_remote; [done|].
    rewrite <- Hme. apply isFromMe_settings.
    destruct (remoteInsert_cases now rnd data st) as [->|(_ & _ & Hs & _)];
      done.
Qed.

(** Bob's first ["hey"] arrives twice in a log that holds an earlier
    message of his: it is added once. *)
Lemma redelivery_is_idempotent_witness :
  MessageData.id remote_event = Some "srv1"
  ∧ "srv1" ≠ ""
  ∧ bearing "srv1" (State.messages directory_state) = 0%nat
  ∧ ¬ Exists (isDuplicate 1000 remote_event) (State.messages directory_state)
  ∧ forOtherChat directory_state remote_event = false
  ∧ State.messages (remoteInsert 1000 [] remote_event directory_state)
    = State.messages directory_state ++ [newMessage 1000 [] remote_event]
  ∧ bearing "srv1"
      (State.messages
         (remoteInsert 2000 [] remote_event
            (remoteInsert 1000 [] remote_event directory_state)))
    = 1%nat.
Proof.
  assert (¬ Exists (isDuplicate 1000 remote_event)
            (State.messages directory_state)) as Hnodup.
  { apply (bool_decide_unpack _). vm_compute. exact I. }
  split; [reflexivity|]. split; [discriminate|]. split; [reflexivity|].
  split; [exact Hnodup|]. split; [reflexivity|].
  destruct (proj1 (proj2 (redelivery_is_idempotent 1000 [] remote_event
                            directory_state "srv1" eq_refl
                            ltac:(discriminate)))
              eq_refl Hnodup eq_refl) as (Hlog & _ & _ & Htwice).
  split; [exact Hlog|]. exact (proj2 (Htwice 2000%Z [])).
Defined.

(** ** Conversation isolation *)

(** C4.  An event that carries the identity [c] of a conversation while
    another conversation [a] is active leaves the whole state, and with it
    the log, as it was. *)
Theorem other_conversation_is_ignored now rnd ev st c a :
  inbound_chatId ev = Some c → State.activeChatId st = Some a →
  c ≠ "" → a ≠ "" → c ≠ a →
  deliver now rnd ev st = Some st.
Proof.
  intros Hc Ha Hcne Hane Hca.
  destruct ev as [| | |data| | | |]; simpl in Hc; try discriminate.
  simpl. unfold on_message, forOtherChat.
  rewrite Hc, Ha, !truthy_Some by done. simpl.
  rewrite bool_decide_eq_false_2; [done|]. congruence.
Qed.

(** The scenario of the specification: an event for ["C1"] while ["C2"] is
    active. *)
Lemma other_conversation_is_ignored_witness :
  inbound_chatId (InMessage isolation_event) = Some "C1"
  ∧ State.activeChatId isolation_state = Some "C2"
  ∧ "C1" ≠ "" ∧ "C2" ≠ "" ∧ "C1" ≠ "C2"
  ∧ deliver 1000 [] (InMessage isolation_event) isolation_state
    = Some isolation_state.
Proof.
  split; [reflexivity|]. split; [reflexivity|].
  split; [discriminate|]. split; [discriminate|]. split; [discriminate|].
  apply (other_conversation_is_ignored 1000 [] (InMessage isolation_event)
           isolation_state "C1" "C2"); try reflexivity; discriminate.
Defined.

(** ** The content-based duplicate check *)

(** C5, as the code has it.  A remote insert for the loaded conversation
    whose id no entry bears is rejected, the state left as it was, when the
    log holds an entry that is not a system notice, has the body and the
    sender of the event, and was stamped later than ten seconds before the
    current time; the stamp has no upper limit.  Without such an entry the
    message is added at the end of the log. *)
Theorem content_duplicate_check now rnd data st :
  (Js.truthy (MessageData.id data) = true →
   ¬ Exists (λ m, Message.id m = MessageData.id data) (State.messages st)) →
  forOtherChat st data = false →
  (Exists (λ m, Message.isSystem m = false
                ∧ Message.text m = MessageData.text data
                ∧ Message.sender m
                  = Js.js_or (MessageData.user data) (MessageData.username data)
                ∧ (now - 10000 < Message.timestamp m)%Z)
     (State.messages st) →
   remoteInsert now rnd data st = st)
  ∧ (¬ Exists (λ m, Message.isSystem m = false
                  ∧ Message.text m = MessageData.text data
                  ∧ Message.sender m
                    = Js.js_or (MessageData.user data) (MessageData.username data)
                  ∧ (now - 10000 < Message.timestamp m)%Z)
       (State.messages st) →
     State.messages (remoteInsert now rnd data st)
     = State.messages st ++ [newMessage now rnd data]).
Proof.
  intros Hfresh Hiso.
  assert ((Js.truthy (MessageData.id data)
           && bool_decide (Exists (λ m, Message.id m = MessageData.id data)
                             (State.messages st))) = false) as Hid.
  { destruct (Js.truthy (MessageData.id data)); [|done]. simpl.
    apply bool_decide_eq_false_2. by apply Hfresh. }
  split.
  - intros Hdup. unfold remoteInsert. rewrite Hid.
    destruct (list_find _ _) eqn:Hfind; [done|].
    exfalso. apply list_find_None in Hfind.
    apply Exists_exists in Hdup as (m & Hin & Hsys & Htxt & Hsnd & Hts).
    rewrite Forall_forall in Hfind. apply (Hfind m Hin).
    unfold isDuplicate. repeat split; try done. lia.
  - intros Hnodup. unfold remoteInsert. rewrite Hid, Hiso.
    destruct (list_find _ _) as [[i m]|] eqn:Hfind.
    + exfalso. apply Hnodup. apply list_find_Some in Hfind as (Hi & Hd & _).
      apply Exists_exists. exists m. split.
      * by eapply list_elem_of_lookup_2.
      * destruct Hd as (? & ? & ? & ?). repeat split; try done. lia.
    + destruct (MessageData.chatId data) as [cid|]; [|done].
      destruct (Js.truthy (Some cid)); done.
Qed.

(** Bob's ["hey"] stamped 15000 is in the log, and another ["hey"] of his
    arrives under a new id: at 20000 it is rejected, at 30000 it is
    added. *)
Lemma content_duplicate_check_witness :
  (Js.truthy (MessageData.id remote_event) = true →
   ¬ Exists (λ m, Message.id m = MessageData.id remote_event)
       (State.messages repeated_state))
  ∧ forOtherChat repeated_state remote_event = false
  ∧ Exists (λ m, Message.isSystem m = false
                 ∧ Message.text m = MessageData.text remote_event
                 ∧ Message.sender m
                   = Js.js_or (MessageData.user remote_event)
                       (MessageData.username remote_event)
                 ∧ (20000 - 10000 < Message.timestamp m)%Z)
      (State.messages repeated_state)
  ∧ remoteInsert 20000 [] remote_event repeated_state = repeated_state
  ∧ ¬ Exists (λ m, Message.isSystem m = false
                   ∧ Message.text m = MessageData.text remote_event
                   ∧ Message.sender m
                     = Js.js_or (MessageData.user remote_event)
                         (MessageData.username remote_event)
                   ∧ (30000 - 10000 < Message.timestamp m)%Z)
        (State.messages repeated_state)
  ∧ State.messages (remoteInsert 30000 [] remote_event repeated_state)
    = State.messages repeated_state ++ [newMessage 30000 [] remote_event].
Proof.
  assert (Js.truthy (MessageData.id remote_event) = true →
          ¬ Exists (λ m, Message.id m = MessageData.id remote_event)
              (State.messages repeated_state)) as Hfresh.
  { intros _. apply (bool_decide_unpack _). vm_compute. exact I. }
  assert (Exists (λ m, Message.isSystem m = false
                       ∧ Message.text m = MessageData.text remote_event
                       ∧ Message.sender m
                         = Js.js_or (MessageData.user remote_event)
                             (MessageData.username remote_event)
                       ∧ (20000 - 10000 < Message.timestamp m)%Z)
            (State.messages repeated_state)) as Hdup.
  { apply Exists_cons_hd. simpl. repeat split; try reflexivity. }
  assert (¬ Exists (λ m, Message.isSystem m = false
                         ∧ Message.text m = MessageData.text remote_event
                         ∧ Message.sender m
                           = Js.js_or (MessageData.user remote_event)
                               (MessageData.username remote_event)
                         ∧ (30000 - 10000 < Message.timestamp m)%Z)
            (State.messages repeated_state)) as Hold.
  { intros H. apply Exists_exists in H as (m & Hin & _ & _ & _ & Hts).
    apply list_elem_of_singleton in Hin as ->. simpl in Hts. lia. }
  split; [exact Hfresh|]. split; [reflexivity|]. split; [exact Hdup|].
  split.
  { exact (proj1 (content_duplicate_check 20000 [] remote_event
                    repeated_state Hfresh eq_refl) Hdup). }
  split; [exact Hold|].
  exact (proj2 (content_duplicate_check 30000 [] remote_event repeated_state
                  Hfresh eq_refl) Hold).
Defined.

(** C5 as stated fails: the only entry of the log was stamped an hour after
    the current time, outside the ten seconds that end now, no entry bears
    the id of the event, and yet the event is rejected. *)
Lemma stamp_has_no_upper_limit :
  State.messages skewed_state = [textMessage "a-1" "hi" "Bob" 3615000 false]
  ∧ ¬ (15000 - 10000 < 3615000 ≤ 15000)%Z
  ∧ ¬ Exists (λ m, Message.id m = MessageData.id skewed_event)
        (State.messages skewed_state)
  ∧ forOtherChat skewed_state skewed_event = false
  ∧ remoteInsert 15000 [] skewed_event skewed_state = skewed_state
  ∧ on_message 15000 [] skewed_event skewed_state = Some skewed_state.
Proof.
  split; [reflexivity|]. split; [lia|]. split.
  - intros H. apply Exists_exists in H as (m & Hin & Hm).
    apply list_elem_of_singleton in Hin as ->. discriminate.
  - repeat split; reflexivity.
Qed.

(** ** Dispatching while offline *)

Lemma senderOrAnonymous_nonempty st : senderOrAnonymous st ≠ "".
Proof.
  unfold senderOrAnonymous. simpl.
  destruct (String.eqb_spec (Js.trim (UserSettings.username (State.settings st))) "");
    done.
Qed.

Lemma trim_empty : Js.trim "" = "".
Proof. reflexivity. Qed.

(** C6, as the code has it.  With no live connection and demo mode off, no
    operation of the dispatcher emits anything.  A text with a body that is
    not blank, and a media message, are added to the log and followed by a
    system notice (["Message not sent: Disconnected"], ["Media not sent:
    Disconnected"]); a blank text does nothing; edit, delete, react, forward
    and create return the state as it was, with no notice. *)
Theorem offline_dispatch now rnd rnd' a st :
  State.connected st = false →
  UserSettings.isDemoMode (State.settings st) = false →
  State.sent (dispatch now rnd rnd' a st) = State.sent st
  ∧ match a with
    | SendText text _ =>
        if String.eqb (Js.trim text) "" then dispatch now rnd rnd' a st = st
        else
          ∃ m n,
            State.messages (dispatch now rnd rnd' a st)
            = State.messages st ++ [m; n]
            ∧ Message.text m = Js.trim text ∧ Message.isSystem m = false
            ∧ Message.text n = "Message not sent: Disconnected"
            ∧ Message.sender n = Some "System" ∧ Message.isSystem n = true
    | SendMedia _ _ _ =>
        ∃ m n,
          State.messages (dispatch now rnd rnd' a st)
          = State.messages st ++ [m; n]
          ∧ Message.isSystem m = false
          ∧ Message.text n = "Media not sent: Disconnected"
          ∧ Message.sender n = Some "System" ∧ Message.isSystem n = true
    | _ => dispatch now rnd rnd' a st = st
    end.
Proof.
  intros Hoff Hdemo.
  destruct a as [text r|u r c|i t|i|i e|m t|n d]; simpl;
    unfold sendMessage, sendMediaMessage, editMessage, deleteMessage,
      toggleReaction, forwardMessage, createChat;
    rewrite ?Hoff; simpl; try (split; reflexivity).
  - destruct (String.eqb_spec text "") as [->|Htext].
    { rewrite trim_empty. simpl. split; reflexivity. }
    destruct (String.eqb_spec (Js.trim text) "") as [|Htrim];
      [split; reflexivity|].
    destruct (String.eqb_spec (senderOrAnonymous st) "") as [He|_];
      [by apply senderOrAnonymous_nonempty in He|].
    simpl. rewrite Hdemo, Hoff. simpl. split; [done|].
    eexists _, _. rewrite <- app_assoc. simpl. repeat split; reflexivity.
  - rewrite Hdemo. simpl. rewrite Hoff. simpl. split; [done|].
    eexists _, _. rewrite <- app_assoc. simpl. repeat split; reflexivity.
Qed.

(** Offline, Alice sends ["hello"]: the log gains her message and the
    notice, and nothing is emitted. *)
Lemma offline_dispatch_witness :
  State.connected offline_state = false
  ∧ UserSettings.isDemoMode (State.settings offline_state) = false
  ∧ State.sent (dispatch 1000 [] [] (SendText "hello" None) offline_state)
    = State.sent offline_state.
Proof.
  split; [reflexivity|]. split; [reflexivity|].
  exact (proj1 (offline_dispatch 1000 [] [] (SendText "hello" None)
                  offline_state eq_refl eq_refl)).
Defined.

(** C6 as stated fails: offline, with demo mode off, an edit and a delete
    leave the log as it was; no notice is added. *)
Lemma offline_edit_and_delete_are_silent :
  State.connected offline_state = false
  ∧ UserSettings.isDemoMode (State.settings offline_state) = false
  ∧ State.messages (dispatch 1000 [] [] (Edit "m-1" "final") offline_state)
    = State.messages offline_state
  ∧ State.messages (dispatch 1000 [] [] (Delete "m-1") offline_state)
    = State.messages offline_state
  ∧ State.messages offline_state = [textMessage "m-1" "draft" "Alice" 50 true].
Proof. repeat split; reflexivity. Qed.

(** ** Loading the history *)

(** The continuation of [loadHistory] installs what it fetched whatever the
    active conversation is by then. *)
Lemma loadHistory_resume_unchecked c dbMessages st :
  c ∈ State.fetches st →
  State.messages (loadHistory_resume c (Some dbMessages) st)
  = loadedMessages (State.settings st) dbMessages
  ∧ State.activeChatId (loadHistory_resume c (Some dbMessages) st)
    = State.activeChatId st.
Proof.
  intros Hc. unfold loadHistory_resume. by rewrite bool_decide_eq_true_2.
Qed.

(** C7 fails on the code.  The user opens A and then B; both requests are
    pending; the history of B arrives and is shown; the history of A
    arrives and replaces it, while B is the active conversation. *)
Theorem stale_history_replaces_log :
  State.fetches switched_state = ["A"; "B"]
  ∧ State.activeChatId switched_state = Some "B"
  ∧ State.messages (loadHistory_resume "B" (Some rowsB) switched_state)
    = loadedMessages (settingsOf "Alice") rowsB
  ∧ State.activeChatId stale_state = Some "B"
  ∧ State.messages stale_state = loadedMessages (settingsOf "Alice") rowsA
  ∧ (Message.text <$> State.messages stale_state) = ["posted in A"].
Proof. repeat split; reflexivity. Qed.

(** ** Reordering the directory *)

Lemma moveChatToTop_unlisted cid ts chats :
  cid ∉ (Chat.id <$> chats) → moveChatToTop cid ts chats = chats.
Proof.
  intros Hno. unfold moveChatToTop.
  destruct (list_find _ _) as [[i c]|] eqn:Hfind; [|done].
  exfalso. apply Hno. apply list_find_Some in Hfind as (Hi & <- & _).
  apply list_elem_of_fmap. exists c. split; [done|].
  by eapply list_elem_of_lookup_2.
Qed.

Lemma moveChatToTop_listed cid ts chats :
  cid ∈ (Chat.id <$> chats) →
  ∃ c before after,
    chats = before ++ c :: after ∧ Chat.id c = cid
    ∧ (cid ∉ Chat.id <$> before)
    ∧ moveChatToTop cid ts chats = Chat.touch ts c :: before ++ after.
Proof.
  intros Hin. unfold moveChatToTop.
  destruct (list_find _ _) as [[i c]|] eqn:Hfind.
  - apply list_find_Some in Hfind as (Hi & Hc & Hmin).
    exists c, (take i chats), (drop (S i) chats).
    split; [by rewrite take_drop_middle|]. split; [done|]. split.
    + intros Hb. apply list_elem_of_fmap in Hb as (y & Hy & Hyin).
      apply list_elem_of_lookup in Hyin as (j & Hj).
      apply lookup_take_Some in Hj as (Hj & Hlt).
      by apply (Hmin j y).
    + by rewrite delete_take_drop.
  - exfalso. apply list_find_None in Hfind.
    apply list_elem_of_fmap in Hin as (y & Hy & Hyin).
    rewrite Forall_forall in Hfind. by apply (Hfind y).
Qed.

Lemma moveChatToTop_ids cid ts chats :
  (Chat.id <$> moveChatToTop cid ts chats) ≡ₚ (Chat.id <$> chats).
Proof.
  destruct (decide (cid ∈ Chat.id <$> chats)) as [Hin|Hno].
  - destruct (moveChatToTop_listed cid ts chats Hin)
      as (c & before & after & Hch & Hc & _ & ->).
    rewrite Hch, !fmap_cons, !fmap_app, fmap_cons. simpl.
    by rewrite Permutation_middle.
  - by rewrite moveChatToTop_unlisted.
Qed.

Lemma bumpActiveChat_messages now st :
  State.messages (bumpActiveChat now st) = State.messages st.
Proof.
  unfold bumpActiveChat. destruct (State.activeChatId st) as [c|]; [|done].
  destruct (Js.truthy (Some c)); done.
Qed.






(** ** The own-message flag *)

Lemma trimStart_head s :
  match Js.trimStart s with
  | String c _ => Js.is_ws c = false
  | EmptyString => True
  end.
Proof.
  induction s as [|c s IH]; simpl; [done|].
  destruct (Js.is_ws c) eqn:Hc; [done|]. simpl. done.
Qed.

Lemma trimStart_fixed s :
  match s with
  | String c _ => Js.is_ws c = false
  | EmptyString => True
  end → Js.trimStart s = s.
Proof. destruct s as [|c s]; simpl; [done|]. by intros ->. Qed.

Lemma trimEnd_head s :
  match s with
  | String c _ => Js.is_ws c = false
  | EmptyString => True
  end →
  match Js.trimEnd s with
  | String c _ => Js.is_ws c = false
  | EmptyString => True
  end.
Proof.
  destruct s as [|c s]; simpl; [done|]. intros Hc. rewrite Hc.
  destruct (Js.trimEnd s); done.
Qed.

Lemma trimEnd_idemp s : Js.trimEnd (Js.trimEnd s) = Js.trimEnd s.
Proof.
  induction s as [|c s IH]; simpl; [done|].
  destruct (Js.trimEnd s) as [|d r] eqn:Hr.
  - destruct (Js.is_ws c) eqn:Hc; simpl; [done|]. by rewrite Hc.
  - simpl in *. by rewrite IH.
Qed.

(** [trim] is idempotent. *)
Lemma trim_idemp s : Js.trim (Js.trim s) = Js.trim s.
Proof.
  unfold Js.trim.
  rewrite (trimStart_fixed (Js.trimEnd (Js.trimStart s))).
  - apply trimEnd_idemp.
  - apply trimEnd_head, trimStart_head.
Qed.

(** C9, as the code has it.  The flag is assigned, not derived.  A text
    send whose body is not blank and a media send add an entry with the
    flag set and the trimmed display name (['Anonymous'] when that is
    blank) as sender, followed by system notices only; unless the display
    name is blank, that sender is the current user under [trim] and
    [toLowerCase].  A remote insert adds its entry with the flag cleared,
    whoever the sender is.  A history load sets the flag of an entry
    exactly when its sender is, character by character, the display
    name. *)
Theorem own_flag_assignment :
  (∀ now rnd rnd' text replyToId st,
     Js.trim text ≠ "" →
     ∃ m rest,
       State.messages (sendMessage now rnd rnd' text replyToId st)
       = State.messages st ++ m :: rest
       ∧ Message.isMe m = true ∧ Message.isSystem m = false
       ∧ Message.sender m = Some (senderOrAnonymous st)
       ∧ Forall (λ n, Message.isSystem n = true) rest)
  ∧ (∀ now rnd rnd' uploadData replyToId caption st,
       ∃ m rest,
         State.messages
           (sendMediaMessage now rnd rnd' uploadData replyToId caption st)
         = State.messages st ++ m :: rest
         ∧ Message.isMe m = true ∧ Message.isSystem m = false
         ∧ Message.sender m = Some (senderOrAnonymous st)
         ∧ Forall (λ n, Message.isSystem n = true) rest)
  ∧ (∀ st,
       Js.trim (UserSettings.username (State.settings st)) ≠ "" →
       Js.toLowerCase (Js.trim (senderOrAnonymous st)) = currentUserName st)
  ∧ (∀ now rnd data st,
       remoteInsert now rnd data st = st
       ∨ State.messages (remoteInsert now rnd data st)
         = State.messages st ++ [newMessage now rnd data]
         ∧ Message.isMe (newMessage now rnd data) = false
         ∧ Message.isSystem (newMessage now rnd data) = false)
  ∧ (∀ c dbMessages st m,
       c ∈ State.fetches st →
       m ∈ State.messages (loadHistory_resume c (Some dbMessages) st) →
       Message.isSystem m = false
       ∧ (Message.isMe m = true
          ↔ Message.sender m
            = Some (UserSettings.username (State.settings st)))).
Proof.
  split; [|split; [|split; [|split]]].
  - intros now rnd rnd' text r st Htrim. unfold sendMessage.
    destruct (String.eqb_spec text "") as [->|_]; [by rewrite trim_empty in Htrim|].
    destruct (String.eqb_spec (Js.trim text) "") as [|_]; [done|].
    destruct (String.eqb_spec (senderOrAnonymous st) "") as [He|Hu];
      [by apply senderOrAnonymous_nonempty in He|].
    simpl.
    destruct (UserSettings.isDemoMode (State.settings st)).
    { simpl. eexists _, []. repeat split; done. }
    destruct (State.connected st); simpl.
    + destruct (String.eqb_spec (Js.trim text) "") as [|_]; [done|]. simpl.
      destruct (String.eqb_spec (senderOrAnonymous st) "") as [|_]; [done|].
      rewrite bumpActiveChat_messages. simpl.
      eexists _, []. repeat split; done.
    + rewrite <- app_assoc. simpl. eexists _, [_].
      repeat split; try done. by repeat constructor.
  - intros now rnd rnd' u r c st. unfold sendMediaMessage. simpl.
    destruct (UserSettings.isDemoMode (State.settings st)).
    { simpl. eexists _, []. repeat split; done. }
    destruct (State.connected st); simpl.
    + rewrite bumpActiveChat_messages. simpl.
      eexists _, []. repeat split; done.
    + rewrite <- app_assoc. simpl. eexists _, [_].
      repeat split; try done. by repeat constructor.
  - intros st Hne. unfold senderOrAnonymous, currentUserName. simpl.
    destruct (String.eqb_spec (Js.trim (UserSettings.username (State.settings st))) "");
      [done|].
    by rewrite trim_idemp.
  - intros now rnd data st.
    destruct (remoteInsert_cases now rnd data st) as [?|(Hlog & _)];
      [by left|]. right. done.
  - intros c rows st m Hc Hm.
    destruct (loadHistory_resume_unchecked c rows st Hc) as [Hlog _].
    rewrite Hlog in Hm. unfold loadedMessages in Hm.
    apply list_elem_of_fmap in Hm as (row & -> & _). simpl.
    split; [done|]. rewrite bool_decide_eq_true. split; congruence.
Qed.

(** C9: for Alice, a text send adds an entry whose sender is hers under
    [trim] and [toLowerCase]. *)
Lemma own_flag_assignment_witness :
  Js.trim (UserSettings.username (State.settings offline_state)) ≠ ""
  ∧ Js.toLowerCase (Js.trim (senderOrAnonymous offline_state))
    = currentUserName offline_state.
Proof.
  assert (Js.trim (UserSettings.username (State.settings offline_state)) ≠ "")
    as Hne by (vm_compute; discriminate).
  split; [exact Hne|].
  exact (proj1 (proj2 (proj2 own_flag_assignment)) offline_state Hne).
Defined.

(** C9 as stated fails.  The history row of ["alice"] is loaded with the
    flag cleared although ["alice"] is the current user ["Alice"] under
    [trim] and [toLowerCase]; and a message of Alice herself that is
    inserted as a remote message gets the flag cleared too. *)
Lemma own_flag_is_not_derived :
  Message.isSystem (loadedMessage (settingsOf "Alice") lowercase_row) = false
  ∧ Message.isMe (loadedMessage (settingsOf "Alice") lowercase_row) = false
  ∧ Js.toLowerCase (Js.trim "alice") = Js.toLowerCase (Js.trim "Alice")
  ∧ (State.messages <$> on_message 1000 [] own_remote_event remote_state)
    = Some [newMessage 1000 [] own_remote_event]
  ∧ Message.sender (newMessage 1000 [] own_remote_event) = Some "Alice"
  ∧ currentUserName remote_state = Js.toLowerCase (Js.trim "Alice")
  ∧ Message.isSystem (newMessage 1000 [] own_remote_event) = false
  ∧ Message.isMe (newMessage 1000 [] own_remote_event) = false.
Proof. repeat split; reflexivity. Qed.

(** ** Local ids and the hyphen test *)

Lemma includes_hyphen_cons c s :
  Js.includes "-" (String c s) = Ascii.eqb c "-" || Js.includes "-" s.
Proof.
  change (Js.includes "-" (String c s))
    with ((if ascii_dec "-" c then String.prefix "" s else false)
          || Js.includes "-" s).
  destruct (ascii_dec "-" c) as [<-|Hne].
  - by destruct s.
  - destruct (Ascii.eqb_spec c "-") as [->|_]; [congruence | reflexivity].
Qed.

Lemma includes_hyphen_substring n s :
  Js.includes "-" s = false → Js.includes "-" (Js.substring n s) = false.
Proof.
  revert s. induction n as [|n IH]; intros s; [done|].
  destruct s as [|c s]; [done|].
  rewrite includes_hyphen_cons. intros H%orb_false_iff. simpl.
  apply IH, H.
Qed.

Lemma digit36_not_hyphen d : Ascii.eqb (Js.digit36 d) "-" = false.
Proof.
  unfold Js.digit36.
  assert (Forall (λ c, Ascii.eqb c "-" = false) Js.digits36) as Hall
    by (vm_compute; repeat constructor).
  rewrite Forall_forall in Hall. apply Hall.
  apply list_elem_of_In, nth_In.
  change (length Js.digits36) with 36%nat.
  apply Nat.mod_upper_bound. done.
Qed.

Lemma includes_hyphen_digits frac :
  Js.includes "-" (String.string_of_list_ascii (Js.digit36 <$> frac)) = false.
Proof.
  induction frac as [|d frac IH]; [done|].
  rewrite fmap_cons. simpl String.string_of_list_ascii.
  by rewrite includes_hyphen_cons, digit36_not_hyphen, IH.
Qed.

Lemma randomId_plain rnd : Js.includes "-" (Js.randomId rnd) = false.
Proof.
  unfold Js.randomId. apply includes_hyphen_substring.
  unfold Js.toString36. destruct rnd as [|d rnd]; [done|].
  generalize (includes_hyphen_digits (d :: rnd)).
  generalize (String.string_of_list_ascii (Js.digit36 <$> d :: rnd)).
  intros s Hs. by rewrite !includes_hyphen_cons, Hs.
Qed.

Lemma reconciles_hyphenated fromMe data m :
  hyphenated m → Message.id m ≠ MessageData.tempId data →
  reconciles fromMe data m = Some false.
Proof.
  intros (i & Hi & Hinc) Hne. unfold reconciles.
  rewrite bool_decide_eq_false_2 by done. rewrite Hi, Hinc.
  by destruct (_ && _).
Qed.

(** An id with a hyphen is not an absent or empty token. *)
Lemma hyphenated_not_token data m :
  hyphenated m → Js.truthy (MessageData.tempId data) = false →
  Message.id m ≠ MessageData.tempId data.
Proof.
  intros (i & Hi & Hinc) Htok Heq. rewrite <- Heq, Hi in Htok. simpl in Htok.
  destruct (String.eqb_spec i "") as [->|]; [|done]. discriminate.
Qed.

Lemma addMessage_plain now rnd text sender isMe isSystem replyToId st m :
  m ∈ State.messages (addMessage now rnd text sender isMe isSystem replyToId st).2 →
  m ∈ State.messages st ∨ plainId m.
Proof.
  simpl. intros [?|Hm]%elem_of_app; [by left|]. right.
  apply list_elem_of_singleton in Hm as ->.
  unfold plainId. simpl. apply randomId_plain.
Qed.

(** C10.  The id that [Math.random().toString(36).substring(7)] yields has
    no hyphen; every entry a text or media send adds to the log has such an
    id; the reconciliation pass leaves an entry whose id has a hyphen and
    is not the token of the event as it was; and the handler, given an
    event without a token, leaves every entry with a hyphen in its id as
    it was. *)
Theorem optimistic_ids_have_no_hyphen :
  (∀ rnd, Js.includes "-" (Js.randomId rnd) = false)
  ∧ (∀ now rnd rnd' text replyToId st m,
       m ∈ State.messages (sendMessage now rnd rnd' text replyToId st) →
       m ∈ State.messages st ∨ plainId m)
  ∧ (∀ now rnd rnd' uploadData replyToId caption st m,
       m ∈ State.messages
             (sendMediaMessage now rnd rnd' uploadData replyToId caption st) →
       m ∈ State.messages st ∨ plainId m)
  ∧ (∀ fromMe data prev log matched i m,
       reconcile fromMe data prev = Some (log, matched) →
       prev !! i = Some m → hyphenated m →
       Message.id m ≠ MessageData.tempId data →
       log !! i = Some m)
  ∧ (∀ now rnd data st st' i m,
       Js.truthy (MessageData.tempId data) = false →
       on_message now rnd data st = Some st' →
       State.messages st !! i = Some m → hyphenated m →
       State.messages st' !! i = Some m).
Proof.
  split; [exact randomId_plain|]. split; [|split; [|split]].
  - intros now rnd rnd' text r st m. unfold sendMessage.
    destruct (String.eqb text ""); [by left|].
    destruct (String.eqb (Js.trim text) ""); [by left|].
    destruct (String.eqb (senderOrAnonymous st) ""); [by left|].
    destruct (addMessage now rnd (Js.trim text) (senderOrAnonymous st) true
                false r st) as [tempId st1] eqn:Hadd.
    assert (∀ x, x ∈ State.messages st1 → x ∈ State.messages st ∨ plainId x)
      as H1.
    { intros x Hx. eapply addMessage_plain. rewrite Hadd. exact Hx. }
    assert (∀ t x, x ∈ State.messages
                         (addMessage now rnd' t "System" false true None st1).2 →
                   x ∈ State.messages st ∨ plainId x) as H2.
    { intros t x Hx. apply addMessage_plain in Hx as [Hx|Hx]; auto. }
    destruct (UserSettings.isDemoMode (State.settings st1)); [apply H1|].
    destruct (State.connected st1); [|apply H2].
    destruct (_ || _); [apply H2|].
    rewrite bumpActiveChat_messages. apply H1.
  - intros now rnd rnd' u r c st m. unfold sendMediaMessage.
    set (local := Message.mk (Some (Js.randomId rnd)) _ _ _ _ _ _ _ _ _ _ _ _ _ _ _ _ _).
    set (st1 := State.setMessages (λ prev, prev ++ [local]) st).
    assert (∀ x, x ∈ State.messages st1 → x ∈ State.messages st ∨ plainId x)
      as H1.
    { intros x [?|Hx]%elem_of_app; [by left|]. right.
      apply list_elem_of_singleton in Hx as ->. apply randomId_plain. }
    destruct (UserSettings.isDemoMode (State.settings st1)); [apply H1|].
    destruct (State.connected st1).
    + rewrite bumpActiveChat_messages. apply H1.
    + intros Hx. apply addMessage_plain in Hx as [Hx|Hx]; auto.
  - intros fromMe data prev log matched i m Hrec Hi Hh Hne.
    destruct (reconcile_lookup _ _ _ _ _ _ _ Hrec Hi) as (hit & Hhit & Hlog).
    rewrite reconciles_hyphenated in Hhit by done.
    by injection Hhit as <-.
  - intros now rnd data st st' i m Htok Hrun Hi Hh.
    pose proof (hyphenated_not_token data m Hh Htok) as Hne.
    destruct (on_message_cases _ _ _ _ _ Hrun) as [->|[(log & Hrec & ->)| ->]].
    + done.
    + destruct (reconcile_lookup _ _ _ _ _ _ _ Hrec Hi) as (hit & Hhit & Hlog).
      rewrite reconciles_hyphenated in Hhit by done. by injection Hhit as <-.
    + destruct (remoteInsert_cases now rnd data st) as [->|(-> & _)]; [done|].
      by apply lookup_app_l_Some.
Qed.

(** C10: the entry ["a-1"] of the skewed log is left alone by the pass for
    Bob's token-less ["hi"], here run as the current user's. *)
Lemma optimistic_ids_have_no_hyphen_witness :
  reconcile true skewed_event (State.messages skewed_state)
  = Some (State.messages skewed_state, false)
  ∧ hyphenated (textMessage "a-1" "hi" "Bob" 3615000 false)
  ∧ State.messages skewed_state !! 0%nat
    = Some (textMessage "a-1" "hi" "Bob" 3615000 false).
Proof.
  assert (hyphenated (textMessage "a-1" "hi" "Bob" 3615000 false)) as Hh
    by (eexists; split; reflexivity).
  split; [reflexivity|]. split; [exact Hh|].
  exact (proj1 (proj2 (proj2 (proj2 optimistic_ids_have_no_hyphen)))
           true skewed_event (State.messages skewed_state)
           (State.messages skewed_state) false 0%nat _
           eq_refl eq_refl Hh ltac:(discriminate)).
Defined.

(** * Further properties of the hook *)

(** ** Edit, delete and reaction deltas *)

Lemma setMessages_fixed f st :
  f (State.messages st) = State.messages st → State.setMessages f st = st.
Proof. intros H. destruct st. unfold State.setMessages. simpl in *. by rewrite H. Qed.

Lemma bearing_zero i log :
  bearing i log = 0%nat ↔ Forall (λ m, Message.id m ≠ Some i) log.
Proof.
  unfold bearing. induction log as [|m log IH]; simpl.
  - split; [constructor | done].
  - rewrite filter_cons, Forall_cons, <- IH.
    case_decide; simpl; intuition (try lia; try congruence).
Qed.

Lemma fmap_unless_bearing (f : Message.t → Message.t) i log :
  bearing i log = 0%nat →
  (λ msg, if bool_decide (Message.id msg = Some i) then f msg else msg) <$> log
  = log.
Proof.
  intros H%bearing_zero. induction H as [|m log Hm _ IH]; [done|].
  rewrite fmap_cons, IH. by rewrite bool_decide_eq_false_2.
Qed.

Lemma filter_unless_bearing i log :
  bearing i log = 0%nat → filter (λ msg, Message.id msg ≠ Some i) log = log.
Proof.
  intros H%bearing_zero. induction H as [|m log Hm _ IH]; [done|].
  by rewrite filter_cons_True, IH.
Qed.

(** X1.  An edit, delete or reaction event for an id that no entry of the
    log bears leaves the whole state as it was, and the optimistic edit,
    delete and reaction toggle of the dispatcher leave the log as it
    was. *)
Theorem delta_for_unknown_id now rnd ev st i :
  delta_id ev = Some i → bearing i (State.messages st) = 0%nat →
  deliver now rnd ev st = Some st
  ∧ (∀ text, State.messages (editMessage now i text st) = State.messages st)
  ∧ State.messages (deleteMessage i st) = State.messages st
  ∧ (∀ emoji, State.messages (toggleReaction i emoji st) = State.messages st).
Proof.
  intros Hev Hno. split; [|split; [|split]].
  - destruct ev; simpl in Hev; try discriminate; injection Hev as ->; simpl;
      f_equal; apply setMessages_fixed.
    + by apply fmap_unless_bearing.
    + by apply filter_unless_bearing.
    + by apply fmap_unless_bearing.
  - intros text. unfold editMessage. destruct (State.connected st); [|done].
    simpl. by apply fmap_unless_bearing.
  - unfold deleteMessage. destruct (State.connected st); [|done].
    simpl. by apply filter_unless_bearing.
  - intros emoji. unfold toggleReaction. destruct (State.connected st); [|done].
    simpl. by apply (fmap_unless_bearing
      (λ msg, Message.with_reactions
                (toggled (UserSettings.username (State.settings st)) emoji
                   (Message.reactions msg)) msg)).
Qed.

Lemma delta_for_unknown_id_witness :
  delta_id (InMessageDeleted "gone") = Some "gone"
  ∧ bearing "gone" (State.messages echo_state) = 0%nat
  ∧ deliver 1000 [] (InMessageDeleted "gone") echo_state = Some echo_state.
Proof.
  split; [reflexivity|]. split; [reflexivity|].
  exact (proj1 (delta_for_unknown_id 1000 [] (InMessageDeleted "gone")
                  echo_state "gone" eq_refl eq_refl)).
Defined.

(** X2.  A delete event removes every entry that bears the id and nothing
    else: afterwards no entry bears it, the number of entries bearing any
    other id is what it was, and the log is shorter by the number of
    entries that bore the id; a second delete event for the id changes
    nothing.  The optimistic delete of the dispatcher, when connected,
    leaves the same log. *)
Theorem delete_removes_the_id id st :
  bearing id (State.messages (on_messageDeleted id st)) = 0%nat
  ∧ on_messageDeleted id (on_messageDeleted id st) = on_messageDeleted id st
  ∧ (∀ j, j ≠ id →
       bearing j (State.messages (on_messageDeleted id st))
       = bearing j (State.messages st))
  ∧ (length (State.messages (on_messageDeleted id st))
     + bearing id (State.messages st))%nat
    = length (State.messages st)
  ∧ (State.connected st = true →
     State.messages (deleteMessage id st)
     = State.messages (on_messageDeleted id st)).
Proof.
  assert (bearing id (State.messages (on_messageDeleted id st)) = 0%nat)
    as Hgone.
  { apply bearing_zero, Forall_forall. intros m Hm. simpl in Hm.
    by apply list_elem_of_filter in Hm as [? _]. }
  split; [exact Hgone|]. split.
  { apply setMessages_fixed. by apply filter_unless_bearing. }
  simpl. split; [|split].
  - intros j Hj. unfold bearing. rewrite list_filter_filter. f_equal.
    apply list_filter_iff. intros m. split; [tauto|].
    intros Hm. split; [done|]. congruence.
  - unfold bearing. induction (State.messages st) as [|m log IH]; [done|].
    rewrite !filter_cons. destruct (decide (Message.id m = Some id)) as [He|He].
    + rewrite decide_False by tauto. simpl. lia.
    + rewrite decide_True by done. simpl. lia.
  - intros Hc. unfold deleteMessage. by rewrite Hc.
Qed.

Lemma delete_removes_the_id_witness :
  State.connected echo_state = true
  ∧ State.messages (deleteMessage "tmp1" echo_state)
    = State.messages (on_messageDeleted "tmp1" echo_state).
Proof.
  split; [reflexivity|].
  exact (proj2 (proj2 (proj2 (proj2 (delete_removes_the_id "tmp1" echo_state))))
           eq_refl).
Defined.

Lemma with_edit_twice t u t' u' m :
  Message.with_edit t u (Message.with_edit t' u' m) = Message.with_edit t u m.
Proof. by destruct m. Qed.

Lemma with_reactions_twice r r' m :
  Message.with_reactions r (Message.with_reactions r' m)
  = Message.with_reactions r m.
Proof. by destruct m. Qed.

(** Mapping an update over the entries of one id, twice. *)
Lemma fmap_on_id_twice (f g : Message.t → Message.t) i (log : list Message.t) :
  (∀ m, Message.id (g m) = Message.id m) →
  (λ msg, if bool_decide (Message.id msg = Some i) then f msg else msg)
  <$> ((λ msg, if bool_decide (Message.id msg = Some i) then g msg else msg)
       <$> log)
  = (λ msg, if bool_decide (Message.id msg = Some i) then f (g msg) else msg)
    <$> log.
Proof.
  intros Hg. rewrite <- list_fmap_compose. apply list_fmap_ext.
  intros _ m _. simpl.
  destruct (bool_decide (Message.id m = Some i)) eqn:Hm.
  - by rewrite Hg, Hm.
  - by rewrite Hm.
Qed.

(** X3.  The server's edit wins over the optimistic one: an edit event
    applied after the dispatcher's edit of the same message leaves the log
    the event alone would leave; of two edit events for one message the
    later decides; and an edit keeps the ids of the log, in order. *)
Theorem server_edit_wins now id text text' updatedAt updatedAt' st :
  State.messages (on_messageUpdated id text updatedAt
                    (editMessage now id text' st))
  = State.messages (on_messageUpdated id text updatedAt st)
  ∧ on_messageUpdated id text updatedAt
      (on_messageUpdated id text' updatedAt' st)
    = on_messageUpdated id text updatedAt st
  ∧ Message.id <$> State.messages (on_messageUpdated id text updatedAt st)
    = Message.id <$> State.messages st.
Proof.
  assert (∀ t u (log : list Message.t),
    (λ msg, if bool_decide (Message.id msg = Some id)
            then Message.with_edit text updatedAt msg else msg)
    <$> ((λ msg, if bool_decide (Message.id msg = Some id)
                 then Message.with_edit t u msg else msg) <$> log)
    = (λ msg, if bool_decide (Message.id msg = Some id)
              then Message.with_edit text updatedAt msg else msg) <$> log)
    as Htwice.
  { intros t u log. rewrite fmap_on_id_twice by done.
    apply list_fmap_ext. intros _ m _. simpl.
    by rewrite with_edit_twice. }
  split; [|split].
  - unfold editMessage. destruct (State.connected st); [|done].
    simpl. apply Htwice.
  - unfold on_messageUpdated, State.setMessages. simpl. f_equal. apply Htwice.
  - simpl. rewrite <- list_fmap_compose. apply list_fmap_ext.
    intros _ m _. simpl. by case_bool_decide.
Qed.

(** X4.  The server's reaction map wins over the optimistic toggle: a
    reaction event applied after the dispatcher's toggle on the same
    message leaves the log the event alone would leave, and of two
    reaction events for one message the later decides. *)
Theorem server_reactions_win messageId emoji reactions reactions' st :
  State.messages (on_reactionUpdated messageId reactions
                    (toggleReaction messageId emoji st))
  = State.messages (on_reactionUpdated messageId reactions st)
  ∧ on_reactionUpdated messageId reactions
      (on_reactionUpdated messageId reactions' st)
    = on_reactionUpdated messageId reactions st.
Proof.
  assert (∀ (g : Message.t → Reactions) (log : list Message.t),
    (λ msg, if bool_decide (Message.id msg = Some messageId)
            then Message.with_reactions reactions msg else msg)
    <$> ((λ msg, if bool_decide (Message.id msg = Some messageId)
                 then Message.with_reactions (g msg) msg else msg) <$> log)
    = (λ msg, if bool_decide (Message.id msg = Some messageId)
              then Message.with_reactions reactions msg else msg) <$> log)
    as Htwice.
  { intros g log.
    rewrite (fmap_on_id_twice _ (λ msg, Message.with_reactions (g msg) msg))
      by done.
    apply list_fmap_ext. intros _ m _. simpl.
    by rewrite with_reactions_twice. }
  split.
  - unfold toggleReaction. destruct (State.connected st); [|done].
    simpl. apply (Htwice (λ msg, toggled _ emoji (Message.reactions msg))).
  - unfold on_reactionUpdated, State.setMessages. simpl. f_equal.
    apply (Htwice (λ _, reactions')).
Qed.

(** ** The reaction toggle *)

Lemma filter_out_absent (u : string) (l : list string) :
  u ∉ l → filter (λ v, v ≠ u) l = l.
Proof.
  induction l as [|x l IH]; [done|].
  intros [Hx Hl]%not_elem_of_cons.
  by rewrite filter_cons_True, IH by done.
Qed.

(** X5.  What one toggle does to the reaction map of a message: the user
    is a reactor of the symbol afterwards exactly when they were not
    before, the other reactors of the symbol and the lists of all other
    symbols stay, and the symbol is never left with an empty list (its key
    is removed when the last reactor leaves). *)
Theorem toggled_flips_membership username emoji (old : option Reactions) :
  (username ∈ default [] (toggled username emoji old !! emoji)
   ↔ username ∉ default [] (default ∅ old !! emoji))
  ∧ (∀ v, v ≠ username →
       v ∈ default [] (toggled username emoji old !! emoji)
       ↔ v ∈ default [] (default ∅ old !! emoji))
  ∧ (∀ e, e ≠ emoji → toggled username emoji old !! e = default ∅ old !! e)
  ∧ toggled username emoji old !! emoji ≠ Some [].
Proof.
  unfold toggled. unfold Reactions in *.
  set (m := default ∅ old). set (l := default [] (m !! emoji)).
  destruct (decide (username ∈ l)) as [Hin|Hout].
  - rewrite (bool_decide_eq_true_2 _ Hin).
    assert (∀ k, default [] ((if bool_decide (length (filter (λ u, u ≠ username) l) = 0%nat)
                    then delete emoji m
                    else <[emoji := filter (λ u, u ≠ username) l]> m) !! k)
                 = if decide (k = emoji) then filter (λ u, u ≠ username) l
                   else default [] (m !! k)) as Hlk.
    { intros k. case_bool_decide as Hlen; case_decide as Hk; subst.
      - rewrite lookup_delete_eq. simpl.
        by destruct (filter _ l).
      - by rewrite lookup_delete_ne.
      - by rewrite lookup_insert_eq.
      - by rewrite lookup_insert_ne. }
    split; [|split; [|split]].
    + rewrite Hlk, decide_True by done. rewrite list_elem_of_filter.
      split; [tauto | done].
    + intros v Hv. rewrite Hlk, decide_True by done.
      rewrite list_elem_of_filter. tauto.
    + intros e He. case_bool_decide.
      * by rewrite lookup_delete_ne.
      * by rewrite lookup_insert_ne.
    + case_bool_decide as Hlen.
      * by rewrite lookup_delete_eq.
      * rewrite lookup_insert_eq. intros [= Hnil]. by rewrite Hnil in Hlen.
  - rewrite (bool_decide_eq_false_2 _ Hout).
    rewrite bool_decide_eq_false_2 by (rewrite length_app; simpl; lia).
    split; [|split; [|split]].
    + rewrite lookup_insert_eq. simpl. rewrite elem_of_app.
      split; [done|]. intros _. right. by apply list_elem_of_singleton.
    + intros v Hv. rewrite lookup_insert_eq. simpl.
      rewrite elem_of_app, list_elem_of_singleton. tauto.
    + intros e He. by rewrite lookup_insert_ne.
    + rewrite lookup_insert_eq. intros [= Hnil]. by destruct l.
Qed.

Lemma toggled_Some username emoji (m : gmap string (list string)) :
  toggled username emoji (Some m)
  = let l := default [] (m !! emoji) in
    let l' := if bool_decide (username ∈ l)
              then filter (λ u, u ≠ username) l else l ++ [username] in
    if bool_decide (length l' = 0%nat) then delete emoji m
    else <[emoji := l']> m.
Proof. reflexivity. Qed.

(** X6.  Toggling twice is a round trip from the side of a user who has
    not reacted: the second toggle gives back the very map the first one
    started from, provided the symbol was not stored with an empty
    list. *)
Theorem toggled_twice_restores username emoji (m : Reactions) :
  username ∉ default [] (m !! emoji) → m !! emoji ≠ Some [] →
  toggled username emoji (Some (toggled username emoji (Some m))) = m.
Proof.
  unfold Reactions in *. intros Hout Hnil.
  assert (toggled username emoji (Some m)
          = <[emoji := default [] (m !! emoji) ++ [username]]> m) as ->.
  { rewrite toggled_Some. cbv zeta.
    rewrite (bool_decide_eq_false_2 _ Hout).
    by rewrite bool_decide_eq_false_2 by (rewrite length_app; simpl; lia). }
  rewrite toggled_Some. cbv zeta. rewrite lookup_insert_eq.
  cbn [from_option id].
  assert (username ∈ default [] (m !! emoji) ++ [username]) as Hin
    by (apply elem_of_app; right; by apply list_elem_of_singleton).
  rewrite (bool_decide_eq_true_2 _ Hin).
  rewrite filter_app, (filter_out_absent _ _ Hout), filter_cons_False by tauto.
  rewrite filter_nil, app_nil_r.
  destruct (m !! emoji) as [l|] eqn:Hl; cbn [from_option id].
  - destruct l as [|x l]; [done|].
    rewrite bool_decide_eq_false_2 by done.
    rewrite insert_insert_eq. by apply insert_id.
  - rewrite bool_decide_eq_true_2 by done. by apply delete_insert_id.
Qed.

Lemma toggled_twice_restores_witness :
  ("Alice" ∉ default [] (({[ "+1" := ["Bob"] ]} : gmap string (list string)) !! "+1"))
  ∧ ({[ "+1" := ["Bob"] ]} : gmap string (list string)) !! "+1" ≠ Some []
  ∧ toggled "Alice" "+1" (Some (toggled "Alice" "+1" (Some {[ "+1" := ["Bob"] ]})))
    = {[ "+1" := ["Bob"] ]}.
Proof.
  assert ("Alice" ∉ default [] (({[ "+1" := ["Bob"] ]} : gmap string (list string)) !! "+1"))
    as H1.
  { rewrite lookup_singleton_eq. simpl.
    intros H%list_elem_of_singleton. discriminate. }
  assert (({[ "+1" := ["Bob"] ]} : gmap string (list string)) !! "+1" ≠ Some []) as H2
    by (rewrite lookup_singleton_eq; discriminate).
  split; [exact H1|]. split; [exact H2|].
  exact (toggled_twice_restores "Alice" "+1" {[ "+1" := ["Bob"] ]} H1 H2).
Defined.

(** X7.  From the side of a user who has reacted, two toggles give the
    reactors of the symbol back up to their order (the user moves to the
    end), when the list named each reactor once; the other symbols are as
    they were. *)
Theorem toggled_twice_permutes username emoji (m : Reactions) :
  username ∈ default [] (m !! emoji) → NoDup (default [] (m !! emoji)) →
  default [] (toggled username emoji (Some (toggled username emoji (Some m)))
              !! emoji)
  ≡ₚ default [] (m !! emoji)
  ∧ ∀ e, e ≠ emoji →
      toggled username emoji (Some (toggled username emoji (Some m))) !! e
      = m !! e.
Proof.
  unfold Reactions in *. intros Hin Hnd.
  pose proof (toggled_flips_membership username emoji (Some m))
    as (Hflip & Hothers & Hkeys & _).
  pose proof (toggled_flips_membership username emoji
                (Some (toggled username emoji (Some m))))
    as (_ & _ & Hkeys' & _).
  split; [|intros e He; rewrite Hkeys', Hkeys by done; done].
  set (l := default [] (m !! emoji)) in *.
  assert (default [] (toggled username emoji (Some m) !! emoji)
          = filter (λ u, u ≠ username) l) as Hfirst.
  { rewrite toggled_Some. cbv zeta. unfold Reactions. fold l.
    rewrite (bool_decide_eq_true_2 _ Hin).
    case_bool_decide as Hlen.
    - rewrite lookup_delete_eq. cbn [from_option id]. by destruct (filter _ l).
    - by rewrite lookup_insert_eq. }
  assert (username ∉ filter (λ u, u ≠ username) l) as Hgone
    by (rewrite list_elem_of_filter; tauto).
  rewrite (toggled_Some _ _ (toggled username emoji (Some m))). cbv zeta.
  unfold Reactions in *. rewrite Hfirst.
  rewrite (bool_decide_eq_false_2 _ Hgone).
  rewrite bool_decide_eq_false_2 by (rewrite length_app; simpl; lia).
  rewrite lookup_insert_eq. cbn [from_option id].
  apply NoDup_Permutation; [|done|].
  - apply NoDup_app. split; [by apply NoDup_filter|]. split.
    + intros x Hx Hx'. apply list_elem_of_singleton in Hx' as ->. done.
    + apply NoDup_singleton.
  - intros x. rewrite elem_of_app, list_elem_of_filter, list_elem_of_singleton.
    destruct (decide (x = username)) as [->|]; tauto.
Qed.

Lemma toggled_twice_permutes_witness :
  "Alice" ∈ default [] (({[ "+1" := ["Alice"; "Bob"] ]} : gmap string (list string)) !! "+1")
  ∧ default [] (toggled "Alice" "+1"
                  (Some (toggled "Alice" "+1"
                           (Some {[ "+1" := ["Alice"; "Bob"] ]}))) !! "+1")
    ≡ₚ default [] (({[ "+1" := ["Alice"; "Bob"] ]} : gmap string (list string)) !! "+1").
Proof.
  assert ("Alice" ∈ default [] (({[ "+1" := ["Alice"; "Bob"] ]} : gmap string (list string)) !! "+1"))
    as H1 by (rewrite lookup_singleton_eq; simpl; apply list_elem_of_here).
  assert (NoDup (default [] (({[ "+1" := ["Alice"; "Bob"] ]} : gmap string (list string)) !! "+1")))
    as H2.
  { rewrite lookup_singleton_eq. simpl. apply NoDup_cons. split.
    - intros H%list_elem_of_singleton. discriminate.
    - apply NoDup_singleton. }
  split; [exact H1|].
  exact (proj1 (toggled_twice_permutes "Alice" "+1" _ H1 H2)).
Defined.

(** ** Sending and the echo *)

Lemma sendMessage_blank now rnd rnd' text replyToId st :
  Js.trim text = "" → sendMessage now rnd rnd' text replyToId st = st.
Proof.
  intros Hb. unfold sendMessage.
  destruct (String.eqb text ""); [done|]. by rewrite Hb.
Qed.

(** The three ways a text with a body ends. *)
Lemma sendMessage_body now rnd rnd' text replyToId st :
  Js.trim text ≠ "" →
  let st1 :=
    (addMessage now rnd (Js.trim text) (senderOrAnonymous st) true false
       replyToId st).2 in
  sendMessage now rnd rnd' text replyToId st
  = if UserSettings.isDemoMode (State.settings st) then
      State.setTimers (S (State.timers st)) st1
    else if State.connected st then
      bumpActiveChat now
        (State.emit
           (EmitMessage
              (Outgoing.mk (senderOrAnonymous st) None (Js.trim text)
                 (Some (Js.randomId rnd)) replyToId (activeOrUndefined st)
                 None None None None None None None None)) st1)
    else
      (addMessage now rnd' "Message not sent: Disconnected" "System"
         false true None st1).2.
Proof.
  intros Hb. unfold sendMessage.
  destruct (String.eqb_spec text "") as [->|_]; [by rewrite trim_empty in Hb|].
  destruct (String.eqb_spec (Js.trim text) "") as [|_]; [done|].
  destruct (String.eqb_spec (senderOrAnonymous st) "") as [He|_];
    [by apply senderOrAnonymous_nonempty in He|].
  simpl.
  destruct (UserSettings.isDemoMode (State.settings st)); [done|].
  destruct (State.connected st); [|done].
  destruct (String.eqb_spec (Js.trim text) "") as [|_]; [done|].
  destruct (String.eqb_spec (senderOrAnonymous st) "") as [He|_];
    [by apply senderOrAnonymous_nonempty in He|].
  done.
Qed.

(** X8.  A text send changes the state exactly when its body is not blank:
    a body of white space only does nothing in any mode, and any other
    body lengthens the log. *)
Theorem sendMessage_acts_iff_body now rnd rnd' text replyToId st :
  sendMessage now rnd rnd' text replyToId st = st ↔ Js.trim text = "".
Proof.
  split; [|apply sendMessage_blank].
  intros Heq. destruct (decide (Js.trim text = "")) as [|Hb]; [done|].
  exfalso.
  assert (length (State.messages (sendMessage now rnd rnd' text replyToId st))
          > length (State.messages st)) as Hlen.
  { rewrite (sendMessage_body _ _ _ _ _ _ Hb). cbv zeta.
    destruct (UserSettings.isDemoMode (State.settings st)).
    - simpl. rewrite length_app. simpl. lia.
    - destruct (State.connected st).
      + rewrite bumpActiveChat_messages. simpl. rewrite length_app. simpl. lia.
      + simpl. rewrite !length_app. simpl. lia. }
  rewrite Heq in Hlen. lia.
Qed.

(** [bumpActiveChat] touches the directory only. *)
Lemma bumpActiveChat_frame now st :
  State.settings (bumpActiveChat now st) = State.settings st
  ∧ State.activeChatId (bumpActiveChat now st) = State.activeChatId st
  ∧ State.sent (bumpActiveChat now st) = State.sent st
  ∧ State.connected (bumpActiveChat now st) = State.connected st.
Proof.
  unfold bumpActiveChat.
  destruct (State.activeChatId st) as [c|] eqn:Ha;
    [|repeat split; try reflexivity; done].
  destruct (Js.truthy (Some c)); repeat split; try reflexivity; done.
Qed.

Lemma well_typed_snoc log m :
  well_typed log → is_Some (Message.id m) → well_typed (log ++ [m]).
Proof. intros. apply Forall_app. split; [done|]. by repeat constructor. Qed.

(** The echo of the entry at the end of the log. *)
Lemma echo_of_last_entry now rnd data st log0 m T :
  State.messages st = log0 ++ [m] → Message.id m = Some T →
  well_typed (State.messages st) →
  MessageData.tempId data = Some T →
  forOtherChat st data = false →
  T ≠ "" ∨ isFromMe st data = true →
  ∃ log0',
    on_message now rnd data st
    = Some (State.setMessages (λ _, log0' ++ [synced data m]) st)
    ∧ length log0' = length log0.
Proof.
  intros Hlog Hm Hty HT Hiso Hbranch.
  destruct (reconcile_typed (isFromMe st data) data _ Hty)
    as [[log matched] Hrec].
  assert (State.messages st !! length log0 = Some m) as Hlast
    by (rewrite Hlog; apply list_lookup_middle; done).
  assert (reconciles (isFromMe st data) data m = Some true) as Hhit
    by (apply reconciles_token; congruence).
  assert (matched = true) as ->.
  { apply (reconcile_Some _ _ _ _ _ Hrec). apply Exists_exists.
    exists m. split; [|done]. by eapply list_elem_of_lookup_2. }
  destruct (reconcile_lookup _ _ _ _ _ _ _ Hrec Hlast) as (hit & Hhit' & Hl).
  rewrite Hhit in Hhit'. injection Hhit' as <-.
  pose proof (reconcile_length _ _ _ _ _ Hrec) as Hlen.
  rewrite Hlog, length_app in Hlen. simpl in Hlen.
  exists (take (length log0) log). split.
  - unfold on_message. rewrite Hiso, HT.
    assert (Js.truthy (Some T) || isFromMe st data = true) as ->
      by (destruct Hbranch as [Hne| ->];
          [by rewrite (truthy_Some _ Hne) | apply orb_true_r]).
    rewrite Hrec. do 2 f_equal.
    assert (log = take (length log0) log ++ [synced data m]) as Hsplit.
    { rewrite <- (take_drop (length log0) log) at 1. f_equal.
      rewrite (drop_S _ _ _ Hl).
      rewrite drop_ge by lia. done. }
    unfold State.setMessages. by rewrite <- Hsplit.
  - rewrite length_take. lia.
Qed.

Lemma isFromMe_own_sender st data :
  Js.trim (UserSettings.username (State.settings st)) ≠ "" →
  MessageData.user data = Some (senderOrAnonymous st) →
  isFromMe st data = true.
Proof.
  intros Hne Hu. unfold isFromMe, senderName, currentUserName.
  rewrite Hu. unfold Js.js_or.
  rewrite (truthy_Some _ (senderOrAnonymous_nonempty st)).
  unfold Js.or_default.
  destruct (String.eqb_spec (senderOrAnonymous st) "") as [He|_];
    [by apply senderOrAnonymous_nonempty in He|].
  apply bool_decide_eq_true_2.
  unfold senderOrAnonymous, Js.or_default.
  destruct (String.eqb_spec (Js.trim (UserSettings.username (State.settings st))) "");
    [done|].
  by rewrite trim_idemp.
Qed.

(** X9.  A text sent over a live connection and its echo.  The send emits
    one ['message'] event whose [tempId] is the id of the entry it added,
    with the trimmed body, the sender name and the active conversation.
    When an event then comes back with that [tempId], a server id, and the
    sender name that was sent, the log is as long as it was after the send,
    and its last entry is the sent one, with its trimmed body and its own
    flag, now under the server's id and time.  The display name is not
    blank and the log is typed. *)
Theorem text_send_then_echo now rnd rnd' text replyToId st
    now' rnd'' data sid :
  State.connected st = true →
  UserSettings.isDemoMode (State.settings st) = false →
  Js.trim text ≠ "" →
  Js.trim (UserSettings.username (State.settings st)) ≠ "" →
  well_typed (State.messages st) →
  MessageData.tempId data = Some (Js.randomId rnd) →
  MessageData.id data = Some sid →
  MessageData.user data = Some (senderOrAnonymous st) →
  forOtherChat st data = false →
  ∃ d st' m,
    State.sent (sendMessage now rnd rnd' text replyToId st)
    = State.sent st ++ [EmitMessage d]
    ∧ Outgoing.tempId d = Some (Js.randomId rnd)
    ∧ Outgoing.text d = Js.trim text
    ∧ Outgoing.user d = senderOrAnonymous st
    ∧ Outgoing.chatId d = activeOrUndefined st
    ∧ on_message now' rnd'' data (sendMessage now rnd rnd' text replyToId st)
      = Some st'
    ∧ length (State.messages st') = S (length (State.messages st))
    ∧ last (State.messages st') = Some m
    ∧ Message.id m = Some sid
    ∧ Message.text m = Js.trim text
    ∧ Message.isMe m = true
    ∧ Message.timestamp m = default now (MessageData.createdAt data).
Proof.
  intros Hc Hd Hb Hu Hty HT Hid Huser Hiso.
  rewrite (sendMessage_body _ _ _ _ _ _ Hb). cbv zeta. rewrite Hd, Hc.
  set (m0 := Message.mk (Some (Js.randomId rnd)) (Js.trim text)
               (Some (senderOrAnonymous st)) now false true
               None None None None None None None replyToId
               None None None None).
  set (st1 := bumpActiveChat now _).
  assert (State.messages st1 = State.messages st ++ [m0]) as Hlog
    by (unfold st1; by rewrite bumpActiveChat_messages).
  assert (State.settings st1 = State.settings st
          ∧ State.activeChatId st1 = State.activeChatId st
          ∧ State.sent st1 = State.sent st ++ [EmitMessage
              (Outgoing.mk (senderOrAnonymous st) None (Js.trim text)
                 (Some (Js.randomId rnd)) replyToId (activeOrUndefined st)
                 None None None None None None None None)])
    as (Hset & Hact & Hsent).
  { unfold st1.
    match goal with
    | |- context [bumpActiveChat now ?X] =>
        destruct (bumpActiveChat_frame now X) as (-> & -> & -> & _)
    end.
    repeat split; reflexivity. }
  assert (forOtherChat st1 data = false) as Hiso1
    by (unfold forOtherChat in *; by rewrite Hact).
  assert (isFromMe st1 data = true) as Hme.
  { rewrite (isFromMe_settings st st1 data Hset).
    by apply isFromMe_own_sender. }
  assert (well_typed (State.messages st1)) as Hty1
    by (rewrite Hlog; by apply well_typed_snoc).
  destruct (echo_of_last_entry now' rnd'' data st1 _ m0 _ Hlog eq_refl Hty1
              HT Hiso1 (or_intror Hme)) as (log0' & Hrun & Hlen).
  eexists _, _, (synced data m0).
  split; [exact Hsent|]. do 4 (split; [reflexivity|]).
  split; [exact Hrun|]. simpl.
  split; [rewrite length_app; simpl; lia|].
  split; [by rewrite last_snoc|].
  split; [exact Hid|]. do 2 (split; [reflexivity|]).
  by destruct (MessageData.createdAt data).
Qed.

Lemma text_send_then_echo_witness :
  State.connected active_C_state = true
  ∧ UserSettings.isDemoMode (State.settings active_C_state) = false
  ∧ Js.trim "hello" ≠ ""
  ∧ Js.trim (UserSettings.username (State.settings active_C_state)) ≠ ""
  ∧ well_typed (State.messages active_C_state)
  ∧ MessageData.tempId sent_echo = Some (Js.randomId [1; 2; 3; 4; 5; 6; 7; 8])
  ∧ MessageData.user sent_echo = Some (senderOrAnonymous active_C_state)
  ∧ forOtherChat active_C_state sent_echo = false
  ∧ ∃ st' m,
      on_message 3000 []
        sent_echo
        (sendMessage 1000 [1; 2; 3; 4; 5; 6; 7; 8] [] "hello" None active_C_state)
      = Some st'
      ∧ last (State.messages st') = Some m
      ∧ Message.id m = Some "srv-7".
Proof.
  assert (Js.trim "hello" ≠ "") as H1 by (vm_compute; discriminate).
  assert (Js.trim (UserSettings.username (State.settings active_C_state)) ≠ "")
    as H2 by (vm_compute; discriminate).
  assert (well_typed (State.messages active_C_state)) as H3 by constructor.
  split; [reflexivity|]. split; [reflexivity|]. split; [exact H1|].
  split; [exact H2|]. split; [exact H3|]. split; [reflexivity|].
  split; [reflexivity|]. split; [reflexivity|].
  destruct (text_send_then_echo 1000 [1; 2; 3; 4; 5; 6; 7; 8] [] "hello" None
              active_C_state 3000 [] sent_echo "srv-7"
              eq_refl eq_refl H1 H2 H3 eq_refl eq_refl eq_refl eq_refl)
    as (d & st' & m & _ & _ & _ & _ & _ & Hrun & _ & Hlast & Hid & _).
  exists st', m. repeat split; assumption.
Defined.

Lemma or_default_nonempty a d : d ≠ "" → Js.or_default a d ≠ "".
Proof.
  intros Hd. unfold Js.or_default. destruct a as [s|]; [|done].
  by destruct (String.eqb_spec s "").
Qed.

(** X10.  A media message sent over a live connection and its echo.  The
    send emits one ['message'] event whose [tempId] is the id of the entry
    it added and whose body is the caption, or ["[KIND] file name"] when
    there is no caption or an empty one, so that the body is never empty.  When an event
    then comes back with that [tempId], a server id and the sender name
    that was sent, the log is as long as it was after the send and its
    last entry is the sent one, with its body, media reference and own
    flag, now under the server's id. *)
Theorem media_send_then_echo now rnd rnd' uploadData replyToId caption st
    now' rnd'' data sid :
  State.connected st = true →
  UserSettings.isDemoMode (State.settings st) = false →
  Js.trim (UserSettings.username (State.settings st)) ≠ "" →
  well_typed (State.messages st) →
  MessageData.tempId data = Some (Js.randomId rnd) →
  MessageData.id data = Some sid →
  MessageData.user data = Some (senderOrAnonymous st) →
  forOtherChat st data = false →
  ∃ d st' m,
    State.sent (sendMediaMessage now rnd rnd' uploadData replyToId caption st)
    = State.sent st ++ [EmitMessage d]
    ∧ Outgoing.tempId d = Some (Js.randomId rnd)
    ∧ Outgoing.text d
      = Js.or_default caption
          ("[" +:+ Js.toUpperCase (UploadData.messageType uploadData) +:+ "] "
           +:+ UploadData.fileName uploadData)
    ∧ Outgoing.text d ≠ ""
    ∧ Outgoing.mediaUrl d = Some (UploadData.mediaUrl uploadData)
    ∧ Outgoing.chatId d = activeOrUndefined st
    ∧ on_message now' rnd'' data
        (sendMediaMessage now rnd rnd' uploadData replyToId caption st)
      = Some st'
    ∧ length (State.messages st') = S (length (State.messages st))
    ∧ last (State.messages st') = Some m
    ∧ Message.id m = Some sid
    ∧ Message.text m = Outgoing.text d
    ∧ Message.mediaUrl m = Some (UploadData.mediaUrl uploadData)
    ∧ Message.isMe m = true.
Proof.
  intros Hc Hd Hu Hty HT Hid Huser Hiso.
  unfold sendMediaMessage. simpl. rewrite Hd, Hc.
  set (body := Js.or_default caption _).
  set (m0 := Message.mk (Some (Js.randomId rnd)) body _ _ _ _ _ _ _ _ _ _ _ _
               _ _ _ _).
  set (st1 := bumpActiveChat now _).
  assert (State.messages st1 = State.messages st ++ [m0]) as Hlog
    by (unfold st1; by rewrite bumpActiveChat_messages).
  assert (State.settings st1 = State.settings st
          ∧ State.activeChatId st1 = State.activeChatId st
          ∧ ∃ d, State.sent st1 = State.sent st ++ [EmitMessage d]
                 ∧ Outgoing.tempId d = Some (Js.randomId rnd)
                 ∧ Outgoing.text d = body
                 ∧ Outgoing.mediaUrl d = Some (UploadData.mediaUrl uploadData)
                 ∧ Outgoing.chatId d = activeOrUndefined st)
    as (Hset & Hact & d & Hsent & Hd1 & Hd2 & Hd3 & Hd4).
  { unfold st1.
    match goal with
    | |- context [bumpActiveChat now ?X] =>
        destruct (bumpActiveChat_frame now X) as (-> & -> & -> & _)
    end.
    split; [reflexivity|]. split; [reflexivity|].
    eexists. split; [reflexivity|]. repeat split; reflexivity. }
  assert (forOtherChat st1 data = false) as Hiso1
    by (unfold forOtherChat in *; by rewrite Hact).
  assert (isFromMe st1 data = true) as Hme.
  { rewrite (isFromMe_settings st st1 data Hset).
    by apply isFromMe_own_sender. }
  assert (well_typed (State.messages st1)) as Hty1
    by (rewrite Hlog; by apply well_typed_snoc).
  destruct (echo_of_last_entry now' rnd'' data st1 _ m0 _ Hlog eq_refl Hty1
              HT Hiso1 (or_intror Hme)) as (log0' & Hrun & Hlen).
  exists d, (State.setMessages (λ _, log0' ++ [synced data m0]) st1),
    (synced data m0).
  split; [exact Hsent|]. split; [exact Hd1|]. split; [exact Hd2|]. split.
  { rewrite Hd2. apply or_default_nonempty. discriminate. }
  split; [exact Hd3|]. split; [exact Hd4|].
  split; [exact Hrun|]. simpl.
  split; [rewrite length_app; simpl; lia|].
  split; [by rewrite last_snoc|].
  split; [exact Hid|]. split; [by rewrite Hd2|]. split; reflexivity.
Qed.

Lemma media_send_then_echo_witness :
  State.connected active_C_state = true
  ∧ UserSettings.isDemoMode (State.settings active_C_state) = false
  ∧ Js.trim (UserSettings.username (State.settings active_C_state)) ≠ ""
  ∧ well_typed (State.messages active_C_state)
  ∧ MessageData.tempId picture_echo
    = Some (Js.randomId [1; 2; 3; 4; 5; 6; 7; 8])
  ∧ MessageData.user picture_echo = Some (senderOrAnonymous active_C_state)
  ∧ forOtherChat active_C_state picture_echo = false
  ∧ ∃ st' m,
      on_message 3000 [] picture_echo
        (sendMediaMessage 1000 [1; 2; 3; 4; 5; 6; 7; 8] [] picture None None
           active_C_state)
      = Some st'
      ∧ last (State.messages st') = Some m
      ∧ Message.id m = Some "srv-8"
      ∧ Message.text m = "[IMAGE] cat.png".
Proof.
  assert (Js.trim (UserSettings.username (State.settings active_C_state)) ≠ "")
    as H2 by (vm_compute; discriminate).
  assert (well_typed (State.messages active_C_state)) as H3 by constructor.
  split; [reflexivity|]. split; [reflexivity|]. split; [exact H2|].
  split; [exact H3|]. split; [reflexivity|].
  split; [reflexivity|]. split; [reflexivity|].
  destruct (media_send_then_echo 1000 [1; 2; 3; 4; 5; 6; 7; 8] [] picture
              None None active_C_state 3000 [] picture_echo "srv-8"
              eq_refl eq_refl H2 H3 eq_refl eq_refl eq_refl eq_refl)
    as (d & st' & m & _ & _ & Hbody & _ & _ & _ & Hrun & _ & Hlast & Hid
        & Htext & _).
  exists st', m. split; [exact Hrun|]. split; [exact Hlast|].
  split; [exact Hid|]. rewrite Htext. exact Hbody.
Defined.

(** ** What the handlers keep *)

Lemma well_typed_fmap_on_id (f : Message.t → Message.t) i log :
  (∀ m, Message.id (f m) = Message.id m) → well_typed log →
  well_typed ((λ msg, if bool_decide (Message.id msg = Some i)
                      then f msg else msg) <$> log).
Proof.
  intros Hf Hty. unfold well_typed in *. apply Forall_fmap.
  eapply Forall_impl; [exact Hty|]. intros m Hm. simpl.
  case_bool_decide; [by rewrite Hf | done].
Qed.

Lemma well_typed_filter (P : Message.t → Prop) `{∀ m, Decision (P m)} log :
  well_typed log → well_typed (filter P log).
Proof.
  unfold well_typed. rewrite !Forall_forall. intros Hty m Hm.
  apply list_elem_of_filter in Hm as [_ Hm]. auto.
Qed.

Lemma addMessage_well_typed now rnd text sender isMe isSystem replyToId st :
  well_typed (State.messages st) →
  well_typed
    (State.messages
       (addMessage now rnd text sender isMe isSystem replyToId st).2).
Proof. intros Hty. simpl. by apply well_typed_snoc. Qed.

Lemma loadedMessages_well_typed settings dbMessages :
  well_typed (loadedMessages settings dbMessages).
Proof.
  unfold well_typed, loadedMessages. apply Forall_fmap, Forall_forall.
  intros row _. simpl. done.
Qed.

Lemma dispatch_well_typed now rnd rnd' a st :
  well_typed (State.messages st) →
  well_typed (State.messages (dispatch now rnd rnd' a st)).
Proof.
  intros Hty. destruct a as [text r|u r c|i t|i|i e|m t|n d]; simpl.
  - destruct (decide (Js.trim text = "")) as [Hb|Hb].
    + by rewrite sendMessage_blank.
    + rewrite (sendMessage_body _ _ _ _ _ _ Hb). cbv zeta.
      destruct (UserSettings.isDemoMode (State.settings st));
        [by apply addMessage_well_typed|].
      destruct (State.connected st).
      * rewrite bumpActiveChat_messages. by apply addMessage_well_typed.
      * by do 2 apply addMessage_well_typed.
  - unfold sendMediaMessage.
    set (st1 := State.setMessages _ st).
    assert (well_typed (State.messages st1)) as H1
      by (simpl; by apply well_typed_snoc).
    destruct (UserSettings.isDemoMode (State.settings st1)); [done|].
    destruct (State.connected st1).
    + by rewrite bumpActiveChat_messages.
    + by apply addMessage_well_typed.
  - unfold editMessage. destruct (State.connected st); [|done]. simpl.
    by apply well_typed_fmap_on_id.
  - unfold deleteMessage. destruct (State.connected st); [|done]. simpl.
    by apply well_typed_filter.
  - unfold toggleReaction. destruct (State.connected st); [|done]. simpl.
    by apply (well_typed_fmap_on_id
      (λ msg, Message.with_reactions
                (toggled (UserSettings.username (State.settings st)) e
                   (Message.reactions msg)) msg)).
  - unfold forwardMessage. by destruct (State.connected st).
  - unfold createChat. by destruct (State.connected st).
Qed.

Lemma on_connect_messages now rnd st :
  ∃ notice, State.messages (on_connect now rnd st)
            = State.messages st ++ [notice]
            ∧ is_Some (Message.id notice).
Proof.
  unfold on_connect. simpl.
  destruct (State.activeChatId st) as [c|]; simpl;
    [destruct (negb (c =? "")%string)|]; simpl; eexists; split;
    try reflexivity; done.
Qed.

(** X11.  The log stays typed, and so the handlers do not throw.  From a
    log in which every entry has an id: every operation of the dispatcher
    leaves such a log; every socket event is handled without a
    [TypeError], and leaves such a log unless it is a ['message'] event
    that carries no id; and a history response leaves such a log. *)
Theorem log_stays_typed now rnd rnd' st :
  well_typed (State.messages st) →
  (∀ a, well_typed (State.messages (dispatch now rnd rnd' a st)))
  ∧ (∀ ev, is_Some (deliver now rnd ev st))
  ∧ (∀ ev st',
       (∀ data, ev = InMessage data → is_Some (MessageData.id data)) →
       deliver now rnd ev st = Some st' →
       well_typed (State.messages st'))
  ∧ (∀ c response,
       well_typed (State.messages (loadHistory_resume c response st))).
Proof.
  intros Hty. split; [|split; [|split]].
  - intros a. by apply dispatch_well_typed.
  - intros ev. destruct ev; simpl; try done. by apply on_message_total.
  - intros ev st' Hid Hrun.
    destruct ev as [| |reason|data|i t u|i|i r|c]; simpl in Hrun;
      try (injection Hrun as <-).
    + destruct (on_connect_messages now rnd st) as (n & -> & Hn).
      by apply well_typed_snoc.
    + done.
    + unfold on_disconnect. simpl. by apply well_typed_snoc.
    + eapply on_message_well_typed; [exact Hty| |exact Hrun]. by apply Hid.
    + simpl. by apply well_typed_fmap_on_id.
    + simpl. by apply well_typed_filter.
    + simpl. by apply well_typed_fmap_on_id.
    + done.
  - intros c response. unfold loadHistory_resume.
    case_bool_decide; [|done]. destruct response as [rows|]; [|done].
    simpl. apply loadedMessages_well_typed.
Qed.

Lemma log_stays_typed_witness :
  well_typed (State.messages echo_state)
  ∧ is_Some (deliver 5000 [] (InMessage echo_event) echo_state).
Proof.
  assert (well_typed (State.messages echo_state)) as Hty
    by (repeat constructor; eexists; reflexivity).
  split; [exact Hty|].
  exact (proj1 (proj2 (log_stays_typed 5000 [] [] echo_state Hty))
           (InMessage echo_event)).
Defined.

Lemma reconcile_None fromMe data prev :
  Exists (λ m, reconciles fromMe data m = None) prev →
  reconcile fromMe data prev = None.
Proof.
  induction 1 as [m prev Hm|m prev _ IH]; simpl.
  - by rewrite Hm.
  - rewrite IH. by destruct (reconciles fromMe data m).
Qed.

(** X12.  An echo without an id breaks the handler later.  When the event
    that confirms the entry [T] carries the token but no id, the entry is
    left in the log without an id.  From then on, every ['message'] event
    of the current user that carries a token and the body of that entry
    makes the handler throw a [TypeError], for it reads [includes] off the
    missing id. *)
Theorem idless_echo_breaks_handler now rnd data st T m :
  m ∈ State.messages st → Message.id m = Some T →
  well_typed (State.messages st) →
  MessageData.tempId data = Some T → T ≠ "" →
  MessageData.id data = None →
  forOtherChat st data = false →
  ∃ st',
    on_message now rnd data st = Some st'
    ∧ ¬ well_typed (State.messages st')
    ∧ ∀ now' rnd' data',
        isFromMe st' data' = true →
        forOtherChat st' data' = false →
        is_Some (MessageData.tempId data') →
        MessageData.text data' = Message.text m →
        on_message now' rnd' data' st' = None.
Proof.
  intros Hin Hm Hty HT HTne Hid Hiso.
  destruct (reconcile_typed (isFromMe st data) data _ Hty)
    as [[log matched] Hrec].
  apply list_elem_of_lookup in Hin as (i & Hi).
  assert (reconciles (isFromMe st data) data m = Some true) as Hhit
    by (apply reconciles_token; congruence).
  assert (matched = true) as ->.
  { apply (reconcile_Some _ _ _ _ _ Hrec). apply Exists_exists.
    exists m. split; [|done]. by eapply list_elem_of_lookup_2. }
  destruct (reconcile_lookup _ _ _ _ _ _ _ Hrec Hi) as (hit & Hhit' & Hl).
  rewrite Hhit in Hhit'. injection Hhit' as <-.
  assert (synced data m ∈ log) as Hin' by (by eapply list_elem_of_lookup_2).
  exists (State.setMessages (λ _, log) st). split; [|split].
  - unfold on_message. rewrite Hiso, HT, (truthy_Some _ HTne). simpl.
    by rewrite Hrec.
  - simpl. intros Hty'. apply (well_typed_elem _ _ Hty') in Hin'.
    simpl in Hin'. rewrite Hid in Hin'. by destruct Hin'.
  - intros now' rnd' data' Hme Hiso' [t Ht] Htxt.
    unfold on_message. rewrite Hiso', Hme, orb_true_r. simpl.
    rewrite reconcile_None; [done|].
    apply Exists_exists. exists (synced data m). split; [done|].
    unfold reconciles. simpl. rewrite Hid, Ht.
    rewrite bool_decide_eq_false_2 by done.
    by rewrite bool_decide_eq_true_2.
Qed.

Lemma idless_echo_breaks_handler_witness :
  textMessage "tmp1" "hi" "Alice" 100 true ∈ State.messages echo_state
  ∧ well_typed (State.messages echo_state)
  ∧ MessageData.tempId idless_echo = Some "tmp1"
  ∧ MessageData.id idless_echo = None
  ∧ forOtherChat echo_state idless_echo = false
  ∧ ∃ st', on_message 5000 [] idless_echo echo_state = Some st'
           ∧ ¬ well_typed (State.messages st').
Proof.
  assert (textMessage "tmp1" "hi" "Alice" 100 true ∈ State.messages echo_state)
    as Hin by apply list_elem_of_here.
  assert (well_typed (State.messages echo_state)) as Hty
    by (repeat constructor; eexists; reflexivity).
  split; [exact Hin|]. split; [exact Hty|]. split; [reflexivity|].
  split; [reflexivity|]. split; [reflexivity|].
  destruct (idless_echo_breaks_handler 5000 [] idless_echo echo_state "tmp1"
              _ Hin eq_refl Hty eq_refl ltac:(discriminate) eq_refl eq_refl)
    as (st' & Hrun & Hbad & _).
  exists st'. split; assumption.
Defined.

(** X13.  What the ['message'] handler leaves alone.  Whatever the event,
    the handler emits nothing, keeps the settings, the selection, the
    connection state and the pending requests, never shortens the log and
    lengthens it by one entry at most, and keeps the identities of the
    directory up to their order. *)
Theorem on_message_footprint now rnd data st st' :
  on_message now rnd data st = Some st' →
  State.sent st' = State.sent st
  ∧ State.settings st' = State.settings st
  ∧ State.activeChatId st' = State.activeChatId st
  ∧ State.status st' = State.status st
  ∧ State.connected st' = State.connected st
  ∧ State.fetches st' = State.fetches st
  ∧ (length (State.messages st') = length (State.messages st)
     ∨ length (State.messages st') = S (length (State.messages st)))
  ∧ (Chat.id <$> State.chats st') ≡ₚ (Chat.id <$> State.chats st).
Proof.
  intros Hrun.
  destruct (on_message_cases _ _ _ _ _ Hrun) as [->|[(log & Hrec & ->)| ->]].
  - repeat split; try reflexivity. by left.
  - apply reconcile_length in Hrec. simpl.
    repeat split; try reflexivity. by left.
  - unfold remoteInsert.
    destruct (_ && _); [repeat split; try reflexivity; by left|].
    destruct (list_find _ _); [repeat split; try reflexivity; by left|].
    destruct (forOtherChat st data);
      [repeat split; try reflexivity; by left|].
    destruct (MessageData.chatId data) as [cid|];
      [destruct (Js.truthy (Some cid))|]; simpl;
      repeat split; try reflexivity;
      try (right; rewrite length_app; simpl; lia).
    apply moveChatToTop_ids.
Qed.

Lemma on_message_footprint_witness :
  on_message 1000 [] remote_event remote_state
  = Some (remoteInsert 1000 [] remote_event remote_state)
  ∧ State.sent (remoteInsert 1000 [] remote_event remote_state)
    = State.sent remote_state.
Proof.
  assert (on_message 1000 [] remote_event remote_state
          = Some (remoteInsert 1000 [] remote_event remote_state)) as Hrun
    by reflexivity.
  split; [exact Hrun|].
  exact (proj1 (on_message_footprint _ _ _ _ _ Hrun)).
Defined.

(** ** The order of the directory *)

(** X14.  The directory lists the most recently touched conversation
    first: after [c1] and then another listed conversation [c2] were moved
    to the top, [c2] is first with its stamp and [c1] second with its own.
    Moving the same conversation again with the same stamp changes
    nothing. *)
Theorem moveChatToTop_recency c1 c2 t1 t2 chats :
  c1 ≠ c2 → c1 ∈ (Chat.id <$> chats) → c2 ∈ (Chat.id <$> chats) →
  (∃ x y rest,
     moveChatToTop c2 t2 (moveChatToTop c1 t1 chats) = x :: y :: rest
     ∧ Chat.id x = c2 ∧ Chat.lastMessageAt x = Some t2
     ∧ Chat.id y = c1 ∧ Chat.lastMessageAt y = Some t1)
  ∧ moveChatToTop c1 t1 (moveChatToTop c1 t1 chats) = moveChatToTop c1 t1 chats.
Proof.
  intros Hne H1 H2.
  destruct (moveChatToTop_listed c1 t1 chats H1)
    as (a & before & after & Hch & Ha & Hfirst & Hmove).
  split.
  - assert (c2 ∈ (Chat.id <$> moveChatToTop c1 t1 chats)) as H2'
      by (by rewrite moveChatToTop_ids).
    destruct (moveChatToTop_listed c2 t2 _ H2')
      as (b & before' & after' & Hch' & Hb & Hfirst' & Hmove').
    rewrite Hmove in Hch'. rewrite Hmove'.
    destruct before' as [|z before'].
    + simpl in Hch'. injection Hch' as <- _. simpl in Hb. congruence.
    + simpl in Hch'. injection Hch' as <- _.
      exists (Chat.touch t2 b), (Chat.touch t1 a), (before' ++ after').
      repeat split; done.
  - rewrite Hmove. unfold moveChatToTop. simpl.
    rewrite decide_True by done. simpl. by destruct a.
Qed.

Lemma moveChatToTop_recency_witness :
  "A" ≠ "C"
  ∧ "A" ∈ (Chat.id <$> [chatOf "B"; chatOf "A"; chatOf "C"])
  ∧ "C" ∈ (Chat.id <$> [chatOf "B"; chatOf "A"; chatOf "C"])
  ∧ ∃ x y rest,
      moveChatToTop "C" 20 (moveChatToTop "A" 10 [chatOf "B"; chatOf "A"; chatOf "C"])
      = x :: y :: rest
      ∧ Chat.id x = "C" ∧ Chat.id y = "A".
Proof.
  assert ("A" ∈ (Chat.id <$> [chatOf "B"; chatOf "A"; chatOf "C"])) as H1
    by (simpl; apply list_elem_of_further, list_elem_of_here).
  assert ("C" ∈ (Chat.id <$> [chatOf "B"; chatOf "A"; chatOf "C"])) as H2
    by (simpl; do 2 apply list_elem_of_further; apply list_elem_of_here).
  split; [discriminate|]. split; [exact H1|]. split; [exact H2|].
  destruct (proj1 (moveChatToTop_recency "A" "C" 10 20 _
                     ltac:(discriminate) H1 H2))
    as (x & y & rest & Heq & Hx & _ & Hy & _).
  exists x, y, rest. repeat split; assumption.
Defined.

(** ** The history of a conversation *)

Lemma StronglySorted_reverse {A} (R : A → A → Prop) (l : list A) :
  StronglySorted R l → StronglySorted (flip R) (reverse l).
Proof.
  induction 1 as [|x l Hl IH Hx]; [constructor|].
  rewrite reverse_cons. apply StronglySorted_app. split; [|split].
  - intros x1 x2 H1 H2. apply list_elem_of_singleton in H2 as ->.
    apply elem_of_reverse in H1. rewrite reverse_involutive in H1.
    unfold flip.
    exact (proj1 (Forall_forall _ _) Hx _ H1).
  - done.
  - repeat constructor.
Qed.

(** X15.  The history is installed in the reverse of the order in which
    the rows arrive, each row once: the ids, bodies and times of the loaded
    entries are those of the rows, reversed.  A response that lists the
    newest row first therefore gives a log in which the times never
    decrease. *)
Theorem history_is_reversed settings dbMessages :
  Message.id <$> loadedMessages settings dbMessages
  = Some <$> reverse (DbMessage.id <$> dbMessages)
  ∧ Message.text <$> loadedMessages settings dbMessages
    = reverse (DbMessage.content <$> dbMessages)
  ∧ Message.timestamp <$> loadedMessages settings dbMessages
    = reverse (DbMessage.createdAt <$> dbMessages)
  ∧ (StronglySorted (λ a b, (DbMessage.createdAt b ≤ DbMessage.createdAt a)%Z)
       dbMessages →
     StronglySorted (λ m n, (Message.timestamp m ≤ Message.timestamp n)%Z)
       (loadedMessages settings dbMessages)).
Proof.
  unfold loadedMessages. split; [|split; [|split]].
  - rewrite <- list_fmap_compose, !fmap_reverse, <- list_fmap_compose. done.
  - rewrite <- list_fmap_compose, !fmap_reverse. done.
  - rewrite <- list_fmap_compose, !fmap_reverse. done.
  - intros Hs. apply StronglySorted_reverse in Hs.
    induction Hs as [|row rows _ IH Hrow]; [constructor|].
    rewrite fmap_cons. constructor; [done|].
    apply Forall_fmap. eapply Forall_impl; [exact Hrow|]. done.
Qed.

Lemma history_is_reversed_witness :
  StronglySorted (λ a b, (DbMessage.createdAt b ≤ DbMessage.createdAt a)%Z)
    (rowsB ++ rowsA)
  ∧ StronglySorted (λ m n, (Message.timestamp m ≤ Message.timestamp n)%Z)
      (loadedMessages (settingsOf "Alice") (rowsB ++ rowsA)).
Proof.
  assert (StronglySorted
            (λ a b, (DbMessage.createdAt b ≤ DbMessage.createdAt a)%Z)
            (rowsB ++ rowsA)) as Hs.
  { repeat constructor. simpl. lia. }
  split; [exact Hs|].
  exact (proj2 (proj2 (proj2 (history_is_reversed (settingsOf "Alice")
                                (rowsB ++ rowsA)))) Hs).
Defined.

(** X16.  Opening a conversation while connected, outside demo mode.
    Selecting the conversation that is the active one already changes
    nothing.  Selecting another one empties the log at once and makes it
    the active one; when the response to the request arrives, the log is
    the loaded history; when the request fails, the log stays empty.
    Nothing of the log of the conversation shown before is left in either
    case. *)
Theorem opening_a_conversation id response st :
  State.status st = CONNECTED →
  UserSettings.isDemoMode (State.settings st) = false →
  id ≠ "" →
  (State.activeChatId st = Some id → selectChat id st = st)
  ∧ (State.activeChatId st ≠ Some id →
     State.messages (selectChat id st) = []
     ∧ State.activeChatId (selectChat id st) = Some id
     ∧ id ∈ State.fetches (selectChat id st)
     ∧ (State.connected st = true →
        State.sent (selectChat id st) = State.sent st ++ [EmitJoinChat id])
     ∧ State.messages (loadHistory_resume id response (selectChat id st))
       = match response with
         | Some dbMessages => loadedMessages (State.settings st) dbMessages
         | None => []
         end).
Proof.
  intros Hs Hd Hid. split.
  { intros Ha. unfold selectChat. by rewrite bool_decide_eq_true_2. }
  intros Ha.
  assert (selectChat id st
          = let st1 := State.setFetches (λ fs, fs ++ [id])
                         (State.setMessages (λ _, [])
                            (State.setActiveChatId (Some id) st)) in
            if State.connected st then State.emit (EmitJoinChat id) st1
            else st1) as ->.
  { unfold selectChat, loadHistory_begin.
    rewrite bool_decide_eq_false_2 by done. simpl. rewrite Hs, Hd. simpl.
    destruct (String.eqb_spec id "") as [|_]; [done|]. simpl.
    destruct (State.connected st); simpl; [|done].
    by destruct (String.eqb_spec id ""). }
  cbv zeta.
  assert (id ∈ State.fetches st ++ [id]) as Hin
    by (apply elem_of_app; right; by apply list_elem_of_singleton).
  destruct (State.connected st); simpl;
    (split; [done|]); (split; [done|]); (split; [exact Hin|]);
    (split; [done|]);
    unfold loadHistory_resume; simpl;
    rewrite (bool_decide_eq_true_2 _ Hin); by destruct response.
Qed.

Lemma opening_a_conversation_witness :
  State.status history_state = CONNECTED
  ∧ UserSettings.isDemoMode (State.settings history_state) = false
  ∧ "A" ≠ ""
  ∧ State.activeChatId history_state ≠ Some "A"
  ∧ State.messages (loadHistory_resume "A" (Some rowsA)
                      (selectChat "A" history_state))
    = loadedMessages (State.settings history_state) rowsA.
Proof.
  split; [reflexivity|]. split; [reflexivity|]. split; [discriminate|].
  split; [discriminate|].
  exact (proj2 (proj2 (proj2 (proj2
           (proj2 (opening_a_conversation "A" (Some rowsA) history_state
                     eq_refl eq_refl ltac:(discriminate))
              ltac:(discriminate)))))).
Defined.

(** * Properties of the components *)

(** ** The input row *)

(** X17.  Submitting an input row whose text is blank, with no upload
    waiting, leaves the hook's state as it was: outside demo mode by the
    guard of [handleSend]; in demo mode, when no edit is open, by the guard
    of [sendMessage], which the call then reaches.  Outside demo mode the
    input row is left as it was, too. *)
Theorem blank_input_sends_nothing now rnd rnd' ui st :
  Js.trim (Composer.input ui) = "" →
  Composer.pendingUpload ui = None →
  UserSettings.isDemoMode (State.settings st) = false
  ∨ Js.truthy (Composer.editingMessageId ui) = false →
  (handleSend now rnd rnd' ui st).2 = st
  ∧ (UserSettings.isDemoMode (State.settings st) = false →
     (handleSend now rnd rnd' ui st).1 = ui).
Proof.
  intros Hb Hp Hor. unfold handleSend. rewrite Hb, Hp. simpl.
  destruct (UserSettings.isDemoMode (State.settings st)) eqn:Hd; simpl.
  - destruct Hor as [|He]; [done|]. rewrite He.
    split; [|done]. simpl. by apply sendMessage_blank.
  - done.
Qed.

Lemma blank_input_sends_nothing_witness :
  (handleSend 1000 [] [] (composing "   " None) offline_state).2
  = offline_state.
Proof.
  exact (proj1 (blank_input_sends_nothing 1000 [] []
                  (composing "   " None) offline_state
                  eq_refl eq_refl (or_introl eq_refl))).
Defined.

Lemma showsText_synthetic (m : Message.t) kind fileName url :
  kind = "image" ∨ kind = "video" ∨ kind = "audio" →
  url ≠ "" →
  Message.text m = "[" +:+ Js.toUpperCase kind +:+ "] " +:+ fileName →
  Message.mediaUrl m = Some url →
  showsText m = false.
Proof.
  intros Hk Hu Ht Hm. unfold showsText.
  rewrite Ht, Hm, (truthy_Some _ Hu).
  destruct Hk as [->|[->| ->]]; vm_compute; reflexivity.
Qed.

Lemma sendMediaMessage_log now rnd rnd' upload replyToId caption st :
  ∃ m rest,
    State.messages
      (sendMediaMessage now rnd rnd' upload replyToId caption st)
    = State.messages st ++ m :: rest
    ∧ Message.mediaUrl m = Some (UploadData.mediaUrl upload)
    ∧ Message.text m
      = Js.or_default caption
          ("[" +:+ Js.toUpperCase (UploadData.messageType upload) +:+ "] "
           +:+ UploadData.fileName upload).
Proof.
  unfold sendMediaMessage. cbv zeta.
  match goal with
  | |- context [State.setMessages (λ prev, prev ++ [?m]) st] =>
      set (local := m)
  end.
  change (State.settings (State.setMessages (λ prev, prev ++ [local]) st))
    with (State.settings st).
  change (State.connected (State.setMessages (λ prev, prev ++ [local]) st))
    with (State.connected st).
  destruct (UserSettings.isDemoMode (State.settings st)).
  { exists local, []. by repeat split. }
  destruct (State.connected st).
  { exists local, []. rewrite bumpActiveChat_messages. by repeat split. }
  eexists local, [_]. unfold addMessage. simpl.
  rewrite <- app_assoc. by repeat split.
Qed.

(** X18.  Submitting the input row while an upload is waiting and no edit
    is open adds the media entry to the log and empties the row.  With text
    in the input, the body of the entry is that text, trimmed.  With a blank
    input the body is the generated ["[KIND] file name"], and the bubble of
    the entry does not show it as text. *)
Theorem media_send_from_input_row now rnd rnd' ui upload st :
  Composer.pendingUpload ui = Some upload →
  Js.truthy (Composer.editingMessageId ui) = false →
  UploadData.messageType upload = "image"
  ∨ UploadData.messageType upload = "video"
  ∨ UploadData.messageType upload = "audio" →
  UploadData.mediaUrl upload ≠ "" →
  ∃ m rest,
    State.messages (handleSend now rnd rnd' ui st).2
    = State.messages st ++ m :: rest
    ∧ Message.mediaUrl m = Some (UploadData.mediaUrl upload)
    ∧ (Js.trim (Composer.input ui) = "" →
       showsText m = false ∧ Message.text m ≠ "")
    ∧ (Js.trim (Composer.input ui) ≠ "" →
       Message.text m = Js.trim (Composer.input ui))
    ∧ (handleSend now rnd rnd' ui st).1
      = Composer.mk "" (Composer.editingMessageId ui) None None.
Proof.
  intros Hp He Hk Hu. unfold handleSend. rewrite Hp, He.
  rewrite (bool_decide_eq_true_2 (is_Some (Some upload)))
    by (by eexists).
  rewrite andb_false_r. simpl.
  destruct (sendMediaMessage_log now rnd rnd' upload (replyId ui)
              (captionOf (Composer.input ui)) st) as (m & rest & Hl & Hm & Ht).
  exists m, rest. split; [exact Hl|]. split; [exact Hm|].
  unfold captionOf in Ht. split; [|split; [|reflexivity]].
  - intros Hb. rewrite Hb in Ht. simpl in Ht. split.
    + by eapply showsText_synthetic.
    + rewrite Ht. simpl. discriminate.
  - intros Hb. destruct (String.eqb_spec (Js.trim (Composer.input ui)) "");
      [done|]. simpl in Ht.
    by destruct (String.eqb_spec (Js.trim (Composer.input ui)) "").
Qed.

Lemma media_send_from_input_row_witness :
  ∃ m rest,
    State.messages
      (handleSend 1000 [0;1;2;3;4;5;6;7;8] [] (composing "" (Some picture))
         active_C_state).2
    = State.messages active_C_state ++ m :: rest
    ∧ showsText m = false.
Proof.
  destruct (media_send_from_input_row 1000 [0;1;2;3;4;5;6;7;8] []
              (composing "" (Some picture)) picture active_C_state
              eq_refl eq_refl (or_introl eq_refl) ltac:(discriminate))
    as (m & rest & Hl & _ & Hb & _).
  exists m, rest. split; [exact Hl|]. exact (proj1 (Hb eq_refl)).
Defined.

(** ** The display name *)

(** X19.  Settings stored by [handleSaveSettings] with a name that is not
    blank: the sender name the hook puts on what it sends is the stored
    name itself, and a history row that carries that sender name loads as
    the user's own message. *)
Theorem saved_name_is_the_own_name newSettings st row :
  State.settings st = handleSaveSettings newSettings →
  Js.trim (UserSettings.username newSettings) ≠ "" →
  senderOrAnonymous st = UserSettings.username (State.settings st)
  ∧ (DbMessage.username row = senderOrAnonymous st →
     Message.isMe (loadedMessage (State.settings st) row) = true).
Proof.
  intros Hs Hne.
  assert (senderOrAnonymous st = UserSettings.username (State.settings st))
    as Heq.
  { unfold senderOrAnonymous. rewrite Hs. unfold handleSaveSettings. simpl.
    rewrite trim_idemp.
    by destruct (String.eqb_spec (Js.trim (UserSettings.username newSettings)) ""). }
  split; [exact Heq|].
  intros Hr. unfold loadedMessage. simpl.
  apply bool_decide_eq_true_2. by rewrite Hr.
Qed.

Lemma saved_name_is_the_own_name_witness :
  Message.isMe
    (loadedMessage (State.settings offline_state)
       (history_row "a-1" "Alice" "posted in A" 10)) = true.
Proof.
  exact (proj2 (saved_name_is_the_own_name (settingsOf "  Alice ")
                  offline_state (history_row "a-1" "Alice" "posted in A" 10)
                  eq_refl ltac:(discriminate)) eq_refl).
Defined.

(** ** Shortened texts and the recording clock *)

Lemma string_length_app (a b : string) :
  String.length (a +:+ b) = String.length a + String.length b.
Proof. induction a as [|c a IH]; simpl; [done|]. by rewrite IH. Qed.

Lemma substring_prefix_length n t :
  n ≤ String.length t → String.length (String.substring 0 n t) = n.
Proof.
  revert t. induction n as [|n IH]; intros [|c t] Hn; simpl in *;
    try done; try lia.
  f_equal. apply IH. lia.
Qed.

Lemma substring_prefix_app (a b : string) :
  String.substring 0 (String.length a) (a +:+ b) = a.
Proof.
  induction a as [|c a IH]; simpl; [by destruct b|]. by rewrite IH.
Qed.

(** X20.  [truncateText] returns at most [length + 3] characters, returns
    a text of at most [length] characters as it is, and shortening a
    shortened text again changes nothing. *)
Theorem truncateText_bounds text n :
  String.length (truncateText text n) ≤ n + 3
  ∧ truncateText (Some (truncateText text n)) n = truncateText text n
  ∧ (∀ t, text = Some t → String.length t ≤ n → truncateText text n = t).
Proof.
  destruct text as [t|]; simpl; [|repeat split; try lia; done].
  destruct (String.eqb_spec t "") as [->|Hne].
  { simpl. repeat split; try lia. by intros ? [= <-]. }
  destruct (Nat.ltb_spec n (String.length t)) as [Hlt|Hge].
  - assert (String.length (String.substring 0 n t) = n) as Hlen
      by (apply substring_prefix_length; lia).
    split; [|split].
    + rewrite string_length_app, Hlen. simpl. lia.
    + destruct (String.eqb_spec (String.substring 0 n t +:+ "...") "")
        as [He|_].
      { apply (f_equal String.length) in He.
        rewrite string_length_app, Hlen in He. simpl in He. lia. }
      destruct (Nat.ltb_spec n
                  (String.length (String.substring 0 n t +:+ "...")))
        as [_|Hge].
      * rewrite <- Hlen at 1. by rewrite substring_prefix_app.
      * rewrite string_length_app, Hlen in Hge. simpl in Hge. lia.
    + intros t' [= <-] Hle. lia.
  - split; [lia|]. split.
    + destruct (String.eqb_spec t ""); [done|].
      by destruct (Nat.ltb_spec n (String.length t)); [lia|].
    + by intros t' [= <-] _.
Qed.

Lemma pretty_below_60 k :
  k < 60 →
  String.length (padStart 2 "0" (pretty k)) = 2
  ∧ padStart 2 "0" (pretty k)
    = (if k <? 10 then "0" +:+ pretty k else pretty k).
Proof.
  intros Hk.
  do 60 (destruct k as [|k]; [vm_compute; split; reflexivity|]). lia.
Qed.

(** X21.  The recording clock: minutes without padding, a colon, and the
    seconds within the minute on exactly two digits. *)
Theorem formatDuration_two_digit_seconds seconds :
  ∃ ss,
    formatDuration seconds = pretty (seconds / 60) +:+ ":" +:+ ss
    ∧ String.length ss = 2
    ∧ ss = (if seconds mod 60 <? 10 then "0" +:+ pretty (seconds mod 60)
            else pretty (seconds mod 60)).
Proof.
  exists (padStart 2 "0" (pretty (seconds mod 60))).
  split; [reflexivity|].
  apply pretty_below_60. apply Nat.mod_upper_bound. lia.
Qed.

(** ** Forwarding *)

Lemma availableChats_elsewhere st target :
  target ∈ availableChats (State.chats st) (currentChatId st) →
  Js.truthy (State.activeChatId st) = true →
  State.activeChatId st ≠ Some (Chat.id target).
Proof.
  unfold availableChats. intros Hin Ht Ha.
  apply list_elem_of_filter in Hin as [Hne Hin]. apply Hne.
  unfold currentChatId, activeChat.
  destruct (list_find_elem_of (λ c, Some (Chat.id c) = State.activeChatId st)
              (State.chats st) target Hin (eq_sym Ha)) as [[i c] Hf].
  rewrite Hf. simpl.
  apply list_find_Some in Hf as (_ & Hc & _).
  unfold Js.js_or. rewrite Hc, Ht. by rewrite Ha.
Qed.

(** X22.  A conversation offered by the forward dialog is never the
    active one.  Forwarding to it over a live connection emits one
    ['message'] event for that conversation, marked as forwarded, with the
    body and the original sender of the message, and leaves the log alone;
    and the event the server sends round for it, which names that
    conversation, is dropped by the message handler: the forwarded message
    does not show up in the conversation it was forwarded from. *)
Theorem forward_lands_elsewhere now rnd message target data st :
  target ∈ availableChats (State.chats st) (currentChatId st) →
  Js.truthy (State.activeChatId st) = true →
  Chat.id target ≠ "" →
  State.connected st = true →
  MessageData.chatId data = Some (Chat.id target) →
  State.activeChatId st ≠ Some (Chat.id target)
  ∧ (∃ payload,
       State.sent (forwardMessage message (Chat.id target) st)
       = State.sent st ++ [EmitMessage payload]
       ∧ Outgoing.chatId payload = Some (Chat.id target)
       ∧ Outgoing.isForwarded payload = Some true
       ∧ Outgoing.forwardedFrom payload = Message.sender message
       ∧ Outgoing.text payload = Message.text message)
  ∧ State.messages (forwardMessage message (Chat.id target) st)
    = State.messages st
  ∧ on_message now rnd data (forwardMessage message (Chat.id target) st)
    = Some (forwardMessage message (Chat.id target) st).
Proof.
  intros Hin Ht Hid Hc Hd.
  pose proof (availableChats_elsewhere st target Hin Ht) as Hne.
  split; [exact Hne|].
  unfold forwardMessage. rewrite Hc. simpl.
  split; [eexists; by repeat split|]. split; [reflexivity|].
  unfold on_message, forOtherChat. simpl.
  rewrite Hd, (truthy_Some _ Hid), Ht. simpl.
  rewrite bool_decide_eq_false_2; [done|]. by intros He.
Qed.

Lemma forward_lands_elsewhere_witness :
  on_message 1000 []
    (eventOf (Some "srv-9") None (Some "Alice") "look" (Some 900%Z) (Some "C"))
    (forwardMessage (textMessage "m-1" "look" "Bob" 50 false) "C"
       directory_state)
  = Some (forwardMessage (textMessage "m-1" "look" "Bob" 50 false) "C"
            directory_state).
Proof.
  assert (chatOf "C"
          ∈ availableChats (State.chats directory_state)
              (currentChatId directory_state)) as Hin.
  { vm_compute. apply list_elem_of_here. }
  exact (proj2 (proj2 (proj2
           (forward_lands_elsewhere 1000 []
              (textMessage "m-1" "look" "Bob" 50 false) (chatOf "C")
              (eventOf (Some "srv-9") None (Some "Alice") "look"
                 (Some 900%Z) (Some "C"))
              directory_state Hin eq_refl ltac:(discriminate) eq_refl
              eq_refl)))).
Defined.

(** ** Creating a conversation *)


(** ** Demo mode *)

(** X24.  In demo mode nothing is emitted.  A text with a body adds the
    user's entry and arms one timer; when the timer fires, one entry of the
    sender ["Operator"] follows, not the user's own and not a system
    notice, whose body is one of the canned responses.  A media message
    adds its entry and arms no timer. *)
Theorem demo_send_then_reply now now' rnd rnd' rnd2 k text replyToId upload
    caption st :
  UserSettings.isDemoMode (State.settings st) = true →
  Js.trim text ≠ "" →
  k < length DEMO_RESPONSES →
  State.sent (demoReply now' rnd2 k (sendMessage now rnd rnd' text replyToId st))
  = State.sent st
  ∧ State.timers (sendMessage now rnd rnd' text replyToId st)
    = S (State.timers st)
  ∧ State.timers
      (demoReply now' rnd2 k (sendMessage now rnd rnd' text replyToId st))
    = State.timers st
  ∧ (∃ own reply,
       State.messages
         (demoReply now' rnd2 k (sendMessage now rnd rnd' text replyToId st))
       = State.messages st ++ [own; reply]
       ∧ Message.text own = Js.trim text ∧ Message.isMe own = true
       ∧ Message.sender reply = Some "Operator"
       ∧ Message.isMe reply = false ∧ Message.isSystem reply = false
       ∧ Message.text reply ∈ DEMO_RESPONSES)
  ∧ State.sent (sendMediaMessage now rnd rnd' upload replyToId caption st)
    = State.sent st
  ∧ State.timers (sendMediaMessage now rnd rnd' upload replyToId caption st)
    = State.timers st.
Proof.
  intros Hd Hb Hk.
  rewrite (sendMessage_body now rnd rnd' text replyToId st Hb). cbv zeta.
  rewrite Hd. unfold demoReply, addMessage. simpl.
  destruct (lookup_lt_is_Some_2 DEMO_RESPONSES k Hk) as [r Hr].
  split; [reflexivity|]. split; [reflexivity|]. split; [reflexivity|].
  split.
  - eexists _, _. rewrite <- app_assoc. split; [reflexivity|]. simpl.
    do 5 (split; [reflexivity|]).
    rewrite Hr. simpl. by eapply list_elem_of_lookup_2.
  - unfold sendMediaMessage. simpl. rewrite Hd. by split.
Qed.

Lemma demo_send_then_reply_witness :
  State.sent
    (demoReply 3000 [] 2
       (sendMessage 1000 [] [] "hello" None
          (State.mk [] [] None CONNECTED false
             (UserSettings.mk "Alice" "http://localhost:3000" true) [] [] 0)))
  = [].
Proof.
  exact (proj1 (demo_send_then_reply 1000 3000 [] [] [] 2 "hello" None picture
                  None
                  (State.mk [] [] None CONNECTED false
                     (UserSettings.mk "Alice" "http://localhost:3000" true)
                     [] [] 0)
                  eq_refl ltac:(discriminate) ltac:(simpl; lia))).
Defined.
